(** * OneClickApply: the application screening pipeline

    A shallow embedding of [processApplicationAI] (server/routes.ts), of the
    three screening operations of [DatabaseStorage] (server/storage.ts), of
    the tables of shared/schema.ts they touch, and of the manual trigger
    route [POST /api/ai/process], followed by the properties of the
    screening pipeline that the specification states about them.

    In [processApplicationAI] a run is followed from its call to its
    settling without another run in between: the await points of the
    source are sequenced.  Runs that overlap are followed await by await
    with [step], which agrees with [processApplicationAI] on a run that
    is alone. *)

From Stdlib Require Import ZArith QArith List String Ascii Bool Lia.
From Stdlib Require Import DecimalString.
Import ListNotations.
Local Open Scope string_scope.
Local Open Scope Z_scope.
Local Set Warnings "-register-all".

(** ** JavaScript values that come out of [JSON.parse]

    A JSON number is kept as the exact rational it denotes (a literal
    beyond the range of a double, which parses to Infinity, is here just a
    large number: the integer columns reject both).  An object is the list
    of its members in source order; on a repeated key the later member
    wins, as in [JSON.parse]. *)

Inductive JValue : Type :=
| JNull
| JBool (b : bool)
| JNum (q : Q)
| JStr (s : string)
| JArr (items : list JValue)
| JObj (members : list (string * JValue)).

Definition jint (z : Z) : JValue := JNum (inject_Z z).

Fixpoint last_member (k : string) (members : list (string * JValue))
  : option JValue :=
  match members with
  | [] => None
  | (k', v) :: rest =>
      match last_member k rest with
      | Some v' => Some v'
      | None => if String.eqb k k' then Some v else None
      end
  end.

(** Exceptions a run can meet. *)
Inductive Exn : Type :=
| TransportError   (* the provider call rejects *)
| SyntaxError      (* JSON.parse on a malformed text *)
| TypeError        (* property read on null or undefined *)
| DbError          (* the database rejects a statement *)
| OrmError         (* the ORM refuses an update that sets nothing *)
| ZodError.        (* request validation *)

(** [v.k] for a value [v] produced by [JSON.parse]: reading a property of
    [null] throws; an object yields its member or [undefined] ([None]);
    numbers, booleans, strings and arrays have no property of the names
    read by the pipeline, so the read yields [undefined]. *)
Definition get_prop (v : JValue) (k : string) : Exn + option JValue :=
  match v with
  | JNull => inl TypeError
  | JObj members => inr (last_member k members)
  | _ => inr None
  end.

(** ** Tables (shared/schema.ts)

    Only the columns the pipeline or the claims read are kept; [None] is
    SQL NULL.  Timestamps are left out. *)

Inductive AiStatus : Type := pending | processing | complete | failed.

Record User : Type := mkUser {
  user_id : Z;
  email : string
}.

Record JobSeekerProfile : Type := mkJobSeekerProfile {
  profile_userId : Z;
  skills : option (list string);
  experienceYears : option Z;
  resumeText : option string
}.

Record Job : Type := mkJob {
  job_id : Z;
  companyId : Z;
  title : string;
  description : string;
  requiredSkills : option (list string);
  minYears : option Z
}.

Record Application : Type := mkApplication {
  app_id : Z;
  jobId : Z;
  seekerId : Z
}.

(** A text cell: the driver stores a string as it is and renders any other
    parameter to text before sending it; [Rendered v] stands for the
    rendering of [v]. *)
Inductive PgText : Type :=
| Text (s : string)
| Rendered (v : JValue).

Record ScreeningResult : Type := mkScreeningResult {
  screening_id : Z;
  applicationId : Z;
  rulesScore : option Z;
  semanticScore : option Z;
  finalScore : option Z;
  reasons : option JValue;
  aiSummary : option PgText;
  aiQuestions : option JValue;
  aiStatus : AiStatus
}.

Record Db : Type := mkDb {
  users : list User;
  jobSeekerProfiles : list JobSeekerProfile;
  jobs : list Job;
  applications : list Application;
  screeningResults : list ScreeningResult;
  screening_serial : Z          (* next value of the [id] sequence *)
}.

(** The row [getApplication] returns: the application joined with its job
    and its seeker (a [users] row: it carries no [seekerProfile]). *)
Record ApplicationWithContext : Type := mkCtx {
  app : Application;
  job : Job;
  seeker : User
}.

(** [InsertScreeningResult] as the pipeline fills it; the other columns
    take their defaults (NULL, and 'pending' for [aiStatus]). *)
Record InsertScreeningResult : Type := mkInsert {
  ins_applicationId : Q;
  ins_aiStatus : option AiStatus
}.

(** [Partial<InsertScreeningResult>] as the pipeline fills it: a field that
    is [None] is [undefined], and the ORM leaves it out of the SET clause. *)
Record ScreeningUpdate : Type := mkUpdate {
  set_rulesScore : option JValue;
  set_semanticScore : option JValue;
  set_finalScore : option JValue;
  set_reasons : option JValue;
  set_aiSummary : option JValue;
  set_aiQuestions : option JValue;
  set_aiStatus : option AiStatus
}.

(** A write executed on [screening_results]. *)
Inductive Write : Type :=
| Inserted (row : ScreeningResult)
| Updated (id : Z) (updates : ScreeningUpdate).

(** ** The outside world of one run

    [openai] is the exported client of server/openai.ts: [None] when
    OPENAI_API_KEY is not set.  A client answers a prompt with a reply.
    [JSON_parse] is the JavaScript built-in ([None]: it throws).
    [int4_in] is PostgreSQL's reading of a text parameter bound to an
    [integer] column ([None]: the statement is rejected). *)

Inductive ProviderReply : Type :=
| Rejects                               (* create() rejects *)
| NoChoices                             (* choices[0] is undefined *)
| Message (content : option string).    (* choices[0].message.content *)

Record World : Type := mkWorld {
  openai : option (string -> ProviderReply);
  JSON_parse : string -> option JValue;
  int4_in : string -> option Z
}.

(** The state a run works on: the database, and two records kept for the
    statements below, the prompts sent to the provider and the writes the
    database executed on [screening_results], both oldest first. *)
Record State : Type := mkState {
  db : Db;
  provider_calls : list string;
  writes : list Write
}.

(** ** Promise-returning code as a state and exception monad

    A thrown exception keeps the state reached so far: statements already
    executed by the database are not undone. *)

Inductive Result (A : Type) : Type :=
| Ok (a : A)
| Throw (e : Exn).
Arguments Ok {A} a.
Arguments Throw {A} e.

Definition M (A : Type) : Type := State -> Result A * State.

Definition ret {A} (a : A) : M A := fun st => (Ok a, st).
Definition throw {A} (e : Exn) : M A := fun st => (Throw e, st).
Definition bind {A B} (m : M A) (k : A -> M B) : M B :=
  fun st => match m st with
            | (Ok a, st') => k a st'
            | (Throw e, st') => (Throw e, st')
            end.
Definition try_catch {A} (body : M A) (handler : Exn -> M A) : M A :=
  fun st => match body st with
            | (Ok a, st') => (Ok a, st')
            | (Throw e, st') => handler e st'
            end.
Definition lift {A} (r : Exn + A) : M A :=
  match r with inl e => throw e | inr a => ret a end.

Declare Scope js_scope.
Delimit Scope js_scope with js.
Notation "x <- m ;; k" := (bind m (fun x => k))
  (at level 61, m at next level, right associativity) : js_scope.
Notation "m ;; k" := (bind m (fun _ => k))
  (at level 61, right associativity) : js_scope.
Local Open Scope js_scope.

(** ** Parameters bound to columns *)

Definition in_int4 (z : Z) : bool := (- 2 ^ 31 <=? z) && (z <? 2 ^ 31).

(** A JavaScript number bound to an [integer] column: accepted when it is
    integral and fits the column. *)
Definition number_as_int4 (q : Q) : option Z :=
  let r := Qred q in
  if (Z.pos (Qden r) =? 1) && in_int4 (Qnum r) then Some (Qnum r) else None.

(** A value of the response bound to an [integer] column: [null] is
    NULL, a number must be an int4, a string is read by the database, and
    the text the driver makes of a boolean, an array or an object is never
    an integer. *)
Definition int4_param (w : World) (v : JValue) : Exn + option Z :=
  match v with
  | JNull => inr None
  | JNum q => match number_as_int4 q with
              | Some z => inr (Some z)
              | None => inl DbError
              end
  | JStr s => match int4_in w s with
              | Some z => inr (Some z)
              | None => inl DbError
              end
  | JBool _ | JArr _ | JObj _ => inl DbError
  end.

(** PostgreSQL keeps no NUL character in [text] or [jsonb]: a parameter
    whose text holds one is rejected. *)
Fixpoint has_nul (s : string) : bool :=
  match s with
  | EmptyString => false
  | String c rest => Ascii.eqb c zero || has_nul rest
  end.

(** A value bound to a [jsonb] column goes out as its JSON text; every
    string in it, member names included, must be free of NUL.  The cell
    is kept here as the value sent ([jsonb_param]); the database itself
    keeps the members of an object sorted by name and without
    duplicates. *)
Fixpoint json_has_nul (v : JValue) : bool :=
  match v with
  | JStr s => has_nul s
  | JArr items => existsb json_has_nul items
  | JObj members =>
      existsb (fun member : string * JValue =>
                 let (k, x) := member in has_nul k || json_has_nul x)
              members
  | JNull | JBool _ | JNum _ => false
  end.

Definition jsonb_param (v : JValue) : Exn + option JValue :=
  match v with
  | JNull => inr None
  | _ => if json_has_nul v then inl DbError else inr (Some v)
  end.

(** A value bound to a [text] column: a string goes out as it is; the
    driver writes an array as an array literal, in which the strings stay
    as they are, and anything else as its decimal or JSON text, which has
    no NUL. *)
Fixpoint array_has_nul (v : JValue) : bool :=
  match v with
  | JStr s => has_nul s
  | JArr items => existsb array_has_nul items
  | JNull | JBool _ | JNum _ | JObj _ => false
  end.

Definition text_param (v : JValue) : Exn + option PgText :=
  match v with
  | JNull => inr None
  | JStr s => if has_nul s then inl DbError else inr (Some (Text s))
  | _ => if array_has_nul v then inl DbError else inr (Some (Rendered v))
  end.

(** ** DatabaseStorage (server/storage.ts)

    Every method sends one statement.  A JavaScript number compared with
    or inserted into an [integer] column must be an int4, otherwise the
    database rejects the statement and the method's promise rejects. *)

Definition the_int4 (q : Q) : M Z :=
  match number_as_int4 q with
  | Some z => ret z
  | None => throw DbError
  end.

(** [getApplication]: applications inner-joined with jobs and users; the
    first joined row, or [undefined].  (The left-joined screening row it
    also returns is not read by the pipeline.) *)
Definition join_application (d : Db) (i : Z) : option ApplicationWithContext :=
  match find (fun a => app_id a =? i) (applications d) with
  | None => None
  | Some a =>
      match find (fun j => job_id j =? jobId a) (jobs d),
            find (fun u => user_id u =? seekerId a) (users d) with
      | Some j, Some u => Some (mkCtx a j u)
      | _, _ => None
      end
  end.

(** [getApplication(id)] *)
Definition getApplication (id : Q) : M (option ApplicationWithContext) :=
  i <- the_int4 id ;;
  fun st => (Ok (join_application (db st) i), st).

Definition for_application (i : Z) (r : ScreeningResult) : bool :=
  applicationId r =? i.

(** [getScreeningResult(applicationId)]: the first row selected by
    [application_id], or [undefined].  The statement has no ORDER BY, so
    with several rows of one application the database chooses which comes
    first, and an UPDATE may change its choice.  The list stands for the
    table with its rows in insertion order: it tells which row is
    returned only while the application has at most one row, and the
    statements below that read a row back are made for such
    applications. *)
Definition select_screening (d : Db) (i : Z) : option ScreeningResult :=
  find (for_application i) (screeningResults d).

Definition getScreeningResult (applicationId : Q)
  : M (option ScreeningResult) :=
  i <- the_int4 applicationId ;;
  fun st => (Ok (select_screening (db st) i), st).

Definition with_screening (d : Db) (rows : list ScreeningResult) (serial : Z)
  : Db :=
  mkDb (users d) (jobSeekerProfiles d) (jobs d) (applications d) rows serial.

(** [createScreeningResult(insertResult)]: one INSERT ... RETURNING; the
    [id] comes from the sequence.  A row that the foreign key refuses is
    not inserted, yet its id stays drawn. *)
Definition createScreeningResult (ins : InsertScreeningResult)
  : M ScreeningResult :=
  i <- the_int4 (ins_applicationId ins) ;;
  fun st =>
    let d := db st in
    if existsb (fun a => app_id a =? i) (applications d) then
      let row := mkScreeningResult (screening_serial d) i
                   None None None None None None
                   (match ins_aiStatus ins with
                    | Some s => s
                    | None => pending
                    end) in
      (Ok row,
       mkState (with_screening d (screeningResults d ++ [row])%list
                  (screening_serial d + 1))
               (provider_calls st)
               (writes st ++ [Inserted row])%list)
    else
      (Throw DbError,             (* foreign key on application_id *)
       mkState (with_screening d (screeningResults d)
                  (screening_serial d + 1))
               (provider_calls st) (writes st)).

Definition only_status (s : AiStatus) : ScreeningUpdate :=
  mkUpdate None None None None None None (Some s).

Definition no_values (u : ScreeningUpdate) : bool :=
  match u with
  | mkUpdate None None None None None None None => true
  | _ => false
  end.

(** The SET clause with its parameters bound: one function per column,
    from the old cell to the new one. *)
Record Assignment : Type := mkAssignment {
  new_rulesScore : option Z -> option Z;
  new_semanticScore : option Z -> option Z;
  new_finalScore : option Z -> option Z;
  new_reasons : option JValue -> option JValue;
  new_aiSummary : option PgText -> option PgText;
  new_aiQuestions : option JValue -> option JValue;
  new_aiStatus : AiStatus -> AiStatus
}.

Definition assign {A} (v : option A) (old : A) : A :=
  match v with Some a => a | None => old end.

(** One field of the SET clause: left out when [undefined], otherwise
    bound by the column. *)
Definition bind_param {T} (column : JValue -> Exn + option T)
  (v : option JValue) : Exn + (option T -> option T) :=
  match v with
  | None => inr (fun old => old)
  | Some j => match column j with
              | inl e => inl e
              | inr cell => inr (fun _ => cell)
              end
  end.

Definition bind_set (w : World) (u : ScreeningUpdate) : Exn + Assignment :=
  match bind_param (int4_param w) (set_rulesScore u),
        bind_param (int4_param w) (set_semanticScore u),
        bind_param (int4_param w) (set_finalScore u),
        bind_param jsonb_param (set_reasons u),
        bind_param text_param (set_aiSummary u),
        bind_param jsonb_param (set_aiQuestions u) with
  | inr r, inr s, inr f, inr rs, inr sm, inr qs =>
      inr (mkAssignment r s f rs sm qs (assign (set_aiStatus u)))
  | _, _, _, _, _, _ => inl DbError
  end.

Definition apply_assignment (a : Assignment) (r : ScreeningResult)
  : ScreeningResult :=
  mkScreeningResult (screening_id r) (applicationId r)
    (new_rulesScore a (rulesScore r))
    (new_semanticScore a (semanticScore r))
    (new_finalScore a (finalScore r))
    (new_reasons a (reasons r))
    (new_aiSummary a (aiSummary r))
    (new_aiQuestions a (aiQuestions r))
    (new_aiStatus a (aiStatus r)).

(** UPDATE ... WHERE id = [id]: every row with that id gets the new
    cells.  The list keeps each row at its place; where the database
    keeps the new version of a row is its own matter (see
    [select_screening]). *)
Definition update_where_id (id : Z) (a : Assignment)
  (rows : list ScreeningResult) : list ScreeningResult :=
  map (fun r => if screening_id r =? id then apply_assignment a r else r) rows.

(** [updateScreeningResult(id, updates)]: one UPDATE ... WHERE id = $id
    RETURNING; the statement is either executed whole or rejected.  The
    pipeline passes the id of a row it has read, which is an int4; the
    function is as the source has it for such an [id], and the database
    refuses any other. *)
Definition updateScreeningResult (w : World) (id : Z)
  (updates : ScreeningUpdate) : M (option ScreeningResult) :=
  if no_values updates then throw OrmError
  else
    a <- lift (bind_set w updates) ;;
    fun st =>
      let d := db st in
      let rows := update_where_id id a (screeningResults d) in
      (Ok (find (fun r => screening_id r =? id) rows),
       mkState (with_screening d rows (screening_serial d))
               (provider_calls st)
               (writes st ++ [Updated id updates])%list).

(** ** The prompt (routes.ts, the template literal of [processApplicationAI])

    [app.seeker] is a [users] row, so [app.seeker.seekerProfile] is
    [undefined] and the three profile interpolations print "undefined". *)

Definition nl : string := String (ascii_of_nat 10) EmptyString.
Definition dq : string := String (ascii_of_nat 34) EmptyString.
Definition quoted (s : string) : string := (dq ++ s ++ dq)%string.
Definition show_int (z : Z) : string := NilZero.string_of_int (Z.to_int z).

Definition join_or_undefined (l : option (list string)) : string :=
  match l with
  | Some items => String.concat ", " items
  | None => "undefined"
  end.

Definition prompt_of (a : ApplicationWithContext) : string :=
  String.concat nl
    [ EmptyString;
      "      Job: " ++ title (job a) ++ " at " ++ show_int (companyId (job a))
        ++ " (Company ID)";
      "      Description: " ++ description (job a);
      "      Required Skills: " ++ join_or_undefined (requiredSkills (job a));
      "      ";
      "      Candidate: " ++ email (seeker a);
      "      Profile Skills: " ++ "undefined";
      "      Experience: " ++ "undefined" ++ " years";
      "      Resume Text: " ++ "undefined" ++ "...";
      EmptyString;
      "      Analyze fit. Return JSON:";
      "      {";
      "        " ++ quoted "rulesScore"
        ++ ": number (0-100 based on skills/exp match),";
      "        " ++ quoted "semanticScore"
        ++ ": number (0-100 based on similarity),";
      "        " ++ quoted "finalScore" ++ ": number (weighted),";
      "        " ++ quoted "reasons" ++ ": [" ++ quoted "reason1" ++ ", "
        ++ quoted "reason2" ++ "],";
      "        " ++ quoted "summary" ++ ": " ++ quoted "Short summary" ++ ",";
      "        " ++ quoted "questions" ++ ": [" ++ quoted "Q1" ++ ", "
        ++ quoted "Q2" ++ ", " ++ quoted "Q3" ++ "]";
      "      }";
      "    " ]%string.
Arguments prompt_of : simpl never.

(** ** The evaluation step *)

(** The object literal used when there is no client. *)
Definition mock_response : JValue :=
  JObj [ ("rulesScore", jint 85);
         ("semanticScore", jint 80);
         ("finalScore", jint 82);
         ("reasons", JArr [JStr "Matches required skills";
                           JStr "Good experience"]);
         ("summary", JStr "Strong candidate with relevant experience.");
         ("questions", JArr [JStr "Describe your experience with React.";
                             JStr "How do you handle state management?"]) ].

(** [openai.chat.completions.create(...)]: the prompt goes out, then the
    reply settles the promise.  [provider_calls] records one prompt per
    call of [create]; the requests the client sends for one call, which
    with its default settings include retries, are not told apart. *)
Definition chat_completions_create (client : string -> ProviderReply)
  (prompt : string) : M ProviderReply :=
  fun st =>
    let st' := mkState (db st) (provider_calls st ++ [prompt])%list
                 (writes st) in
    match client prompt with
    | Rejects => (Throw TransportError, st')
    | reply => (Ok reply, st')
    end.

(** [completion.choices[0].message.content || "{}"] *)
Definition content_or_empty_object (reply : ProviderReply) : Exn + string :=
  match reply with
  | Rejects => inl TransportError
  | NoChoices => inl TypeError
  | Message None => inr "{}"
  | Message (Some EmptyString) => inr "{}"
  | Message (Some text) => inr text
  end.

Definition parse (w : World) (text : string) : Exn + JValue :=
  match JSON_parse w text with
  | Some v => inr v
  | None => inl SyntaxError
  end.

Definition evaluate (w : World) (prompt : string) : M JValue :=
  match openai w with
  | Some client =>
      completion <- chat_completions_create client prompt ;;
      text <- lift (content_or_empty_object completion) ;;
      lift (parse w text)
  | None => ret mock_response
  end.

(** The object literal of the success write: the six property reads, in
    source order, and the literal status. *)
Definition success_update (aiResponse : JValue) : Exn + ScreeningUpdate :=
  match get_prop aiResponse "rulesScore",
        get_prop aiResponse "semanticScore",
        get_prop aiResponse "finalScore",
        get_prop aiResponse "reasons",
        get_prop aiResponse "summary",
        get_prop aiResponse "questions" with
  | inr r, inr s, inr f, inr rs, inr sm, inr qs =>
      inr (mkUpdate r s f rs sm qs (Some complete))
  | _, _, _, _, _, _ => inl TypeError
  end.

(** ** processApplicationAI (server/routes.ts)

    The two-second [setTimeout] between the first write and the prompt is
    a pure delay and has no counterpart here. *)

Definition mark_processing (w : World) (applicationId : Q)
  : M ScreeningResult :=
  found <- getScreeningResult applicationId ;;
  match found with
  | None =>
      createScreeningResult (mkInsert applicationId (Some processing))
  | Some screening =>
      updateScreeningResult w (screening_id screening)
        (only_status processing) ;;
      ret screening
  end.

Definition on_failure (w : World) (applicationId : Q) (err : Exn) : M unit :=
  found <- getScreeningResult applicationId ;;
  match found with
  | Some screening =>
      updateScreeningResult w (screening_id screening) (only_status failed) ;;
      ret tt
  | None => ret tt
  end.

(** The [try] block. *)
Definition screening_body (w : World) (applicationId : Q) : M unit :=
  found <- getApplication applicationId ;;
  match found with
  | None => ret tt
  | Some a =>
      screening <- mark_processing w applicationId ;;
      aiResponse <- evaluate w (prompt_of a) ;;
      updates <- lift (success_update aiResponse) ;;
      updateScreeningResult w (screening_id screening) updates ;;
      ret tt
  end.

Definition processApplicationAI (w : World) (applicationId : Q) : M unit :=
  try_catch (screening_body w applicationId) (on_failure w applicationId).

(** ** POST /api/ai/process (server/routes.ts, shared/routes.ts)

    The handler validates the body, starts the pipeline without awaiting
    it and answers.  [api.ai.process.input] is
    [z.object({ applicationId: z.number() })]. *)

Record Response : Type := mkResponse {
  status_code : Z;
  body : JValue
}.

Definition ai_process_input_parse (req_body : JValue) : Exn + Q :=
  match req_body with
  | JObj members =>
      match last_member "applicationId" members with
      | Some (JNum q) => inr q
      | _ => inl ZodError
      end
  | _ => inl ZodError
  end.

Definition processing_started : Response :=
  mkResponse 200 (JObj [ ("message", JStr "Processing started");
                         ("status", JStr "pending") ]).

(** What one request leaves behind: the answer, if the handler got to send
    one, and the runs it started in the background. *)
Record Handled : Type := mkHandled {
  response : option Response;
  background : list (M unit)
}.

Definition ai_process_route (w : World) (req_body : JValue) : Handled :=
  match ai_process_input_parse req_body with
  | inl _ => mkHandled None []
  | inr applicationId =>
      mkHandled (Some processing_started)
                [processApplicationAI w applicationId]
  end.

(** The background runs of a request, settled one after the other.  A run
    that rejects is an unhandled rejection; the state it reached stays. *)
Definition settle (tasks : list (M unit)) (st : State) : State :=
  fold_left (fun s task => snd (task s)) tasks st.

(** ** The scoring rules in the specification's words

    These two functions are not in the source; they follow section 4 of
    the specification and serve to compare its numbers with what the
    pipeline persists. *)
Module SpecWords.

Definition clamp (z : Z) : Z := Z.max 0 (Z.min 100 z).

(** round(0.4 r + 0.6 s), halves up, clamped to 0..100 *)
Definition finalScore (r s : Z) : Z :=
  clamp ((4 * r + 6 * s + 5) / 10).

Definition overlap (candidate required : list string) : Z :=
  Z.of_nat (List.length
    (filter (fun k => existsb (String.eqb k) candidate) required)).

(** round(100 (0.7 overlap / max(1, |required|)
                + 0.3 min(1, years / max(1, minYears)))),
    an absent or zero minYears counting as satisfied *)
Definition rulesScore (candidate required : list string)
  (years minYears : Z) : Z :=
  let n := Z.max 1 (Z.of_nat (List.length required)) in
  let m := Z.max 1 minYears in
  let y := if minYears <=? 0 then m else Z.min years m in
  clamp ((2 * (70 * overlap candidate required * m + 30 * y * n) + n * m)
         / (2 * n * m)).

End SpecWords.

(** * Vocabulary of the statements *)

(** ** A run, step by step, as states

    The functions below describe the writes of a run and the state it
    ends in.  They are proved equal to what [processApplicationAI]
    computes ([run_existing]) and serve to state what a run does. *)

Definition with_status (s : AiStatus) (r : ScreeningResult) : ScreeningResult :=
  mkScreeningResult (screening_id r) (applicationId r) (rulesScore r)
    (semanticScore r) (finalScore r) (reasons r) (aiSummary r)
    (aiQuestions r) s.

Definition status_assignment (s : AiStatus) : Assignment :=
  mkAssignment (fun c => c) (fun c => c) (fun c => c) (fun c => c)
    (fun c => c) (fun c => c) (fun _ => s).

Definition blank_row (id i : Z) (s : AiStatus) : ScreeningResult :=
  mkScreeningResult id i None None None None None None s.

Definition set_status_where (k : Z) (s : AiStatus)
  (rows : list ScreeningResult) : list ScreeningResult :=
  map (fun r => if screening_id r =? k then with_status s r else r) rows.

Definition write_insert (row : ScreeningResult) (st : State) : State :=
  mkState (with_screening (db st) (screeningResults (db st) ++ [row])
             (screening_serial (db st) + 1))
          (provider_calls st)
          (writes st ++ [Inserted row]).

Definition write_update (id : Z) (u : ScreeningUpdate) (a : Assignment)
  (st : State) : State :=
  mkState (with_screening (db st)
             (update_where_id id a (screeningResults (db st)))
             (screening_serial (db st)))
          (provider_calls st)
          (writes st ++ [Updated id u]).

(** The state once the prompt has gone out, if there is a client. *)
Definition sent (w : World) (prompt : string) (st : State) : State :=
  match openai w with
  | Some _ => mkState (db st) (provider_calls st ++ [prompt]) (writes st)
  | None => st
  end.

(** What the evaluation step yields, as a value. *)
Definition evaluation (w : World) (prompt : string) : Exn + JValue :=
  match openai w with
  | Some client =>
      match content_or_empty_object (client prompt) with
      | inl e => inl e
      | inr text => parse w text
      end
  | None => inr mock_response
  end.

(** The update of the success write together with its bound SET clause,
    when every step up to the write goes through; otherwise the exception
    of the first step that throws. *)
Definition accepted_update (w : World) (prompt : string)
  : Exn + (JValue * ScreeningUpdate * Assignment) :=
  match evaluation w prompt with
  | inl e => inl e
  | inr v =>
      match success_update v with
      | inl e => inl e
      | inr u =>
          match bind_set w u with
          | inl e => inl e
          | inr a => inr (v, u, a)
          end
      end
  end.

(** After the first write the application has a row, in 'processing';
    its other cells are those of the row found before, or NULL. *)
Definition marked (i : Z) (st : State) : ScreeningResult * State :=
  match select_screening (db st) i with
  | None =>
      let row := blank_row (screening_serial (db st)) i processing in
      (row, write_insert row st)
  | Some s =>
      (s, write_update (screening_id s) (only_status processing)
            (status_assignment processing) st)
  end.

Definition final_update (w : World) (prompt : string) : ScreeningUpdate :=
  match accepted_update w prompt with
  | inr (_, u, _) => u
  | inl _ => only_status failed
  end.

Definition final_assignment (w : World) (prompt : string) : Assignment :=
  match accepted_update w prompt with
  | inr (_, _, asg) => asg
  | inl _ => status_assignment failed
  end.

(** The state a run on an existing application ends in: the first write,
    the prompt, and then either the success write or, if a step in between
    threw, the failure write. *)
Definition finished (w : World) (a : ApplicationWithContext) (i : Z)
  (st : State) : State :=
  let s := fst (marked i st) in
  let st2 := sent w (prompt_of a) (snd (marked i st)) in
  match accepted_update w (prompt_of a) with
  | inr (_, u, asg) => write_update (screening_id s) u asg st2
  | inl _ =>
      write_update (screening_id s) (only_status failed)
        (status_assignment failed) st2
  end.

(** [v.k], with [undefined] for a read that throws. *)
Definition prop (v : JValue) (k : string) : option JValue :=
  match get_prop v k with
  | inr x => x
  | inl _ => None
  end.

(** The cell a column holds after a SET clause was bound from the field
    [v] of the update. *)
Definition bound {T} (column : JValue -> Exn + option T)
  (v : option JValue) (old : option T) : option T :=
  match v with
  | None => old
  | Some c => match column c with
              | inr cell => cell
              | inl _ => old
              end
  end.

Definition bound_cell (w : World) : option JValue -> option Z -> option Z :=
  bound (int4_param w).


(** The application's row as the run finds it, or the blank row it
    inserts. *)
Definition row_before (st : State) (i : Z) : ScreeningResult :=
  match select_screening (db st) i with
  | Some s => s
  | None => blank_row (screening_serial (db st)) i processing
  end.

(** The row a response [v] leaves when the success write goes through. *)
Definition completed_row (w : World) (v : JValue) (r : ScreeningResult)
  : ScreeningResult :=
  mkScreeningResult (screening_id r) (applicationId r)
    (bound_cell w (prop v "rulesScore") (rulesScore r))
    (bound_cell w (prop v "semanticScore") (semanticScore r))
    (bound_cell w (prop v "finalScore") (finalScore r))
    (bound jsonb_param (prop v "reasons") (reasons r))
    (bound text_param (prop v "summary") (aiSummary r))
    (bound jsonb_param (prop v "questions") (aiQuestions r))
    complete.

(** ** Observations on a state *)

(** The database with another [job_seeker_profiles] table. *)
Definition with_profiles (d : Db) (profiles : list JobSeekerProfile) : Db :=
  mkDb (users d) profiles (jobs d) (applications d) (screeningResults d)
    (screening_serial d).

Definition persisted_status (st : State) (i : Z) : option AiStatus :=
  option_map aiStatus (select_screening (db st) i).

Definition rows_of (st : State) (i : Z) : nat :=
  List.length (filter (for_application i) (screeningResults (db st))).

(** The [id] sequence is ahead of every row. *)
Definition serial_fresh (d : Db) : Prop :=
  Forall (fun r => screening_id r < screening_serial d) (screeningResults d).

Definition score_keys : list string :=
  [ "rulesScore"; "semanticScore"; "finalScore" ].

Definition score_ok (cell : option Z) : Prop :=
  match cell with
  | Some z => 0 <= z <= 100
  | None => True
  end.

Definition scores_ok (r : ScreeningResult) : Prop :=
  score_ok (rulesScore r) /\ score_ok (semanticScore r)
  /\ score_ok (finalScore r).

(** Every score of the response that an integer column takes is in
    0..100. *)
Definition response_scores_ok (w : World) (v : JValue) : Prop :=
  forall k c z, In k score_keys -> prop v k = Some c ->
                int4_param w c = inr (Some z) -> 0 <= z <= 100.

(** One request to the route, its background runs settled. *)
Definition serve (w : World) (req_body : JValue) (st : State)
  : option Response * State :=
  let h := ai_process_route w req_body in
  (response h, settle (background h) st).

(** ** Test data *)

Definition no_provider : World :=
  mkWorld None (fun _ => None) (fun _ => None).

(** Scenario A of the specification: a job asking for React and Node.js
    and five years, a seeker with React, Node.js and TypeScript and six. *)
Definition scenarioA : Db :=
  mkDb [ mkUser 7 "seeker@test.com" ]
       [ mkJobSeekerProfile 7 (Some ["React"; "Node.js"; "TypeScript"])
           (Some 6) None ]
       [ mkJob 3 1 "Senior React Developer"
           "We are looking for an expert in React and Node.js."
           (Some ["React"; "Node.js"]) (Some 5) ]
       [ mkApplication 1 3 7 ]
       []
       1.

Definition fresh (d : Db) : State := mkState d [] [].

(** A provider whose reply is the given text, parsed to the given value. *)
Definition provider_saying (text : string) (v : JValue) : World :=
  mkWorld (Some (fun _ => Message (Some text)))
          (fun s => if String.eqb s text then Some v else None)
          (fun _ => None).

Definition provider_down : World :=
  mkWorld (Some (fun _ => Rejects)) (fun _ => None) (fun _ => None).

(** A provider answering with the three scores given. *)
Definition scores_text (r s f : Z) : string :=
  ("{" ++ quoted "rulesScore" ++ ":" ++ show_int r ++ ","
       ++ quoted "semanticScore" ++ ":" ++ show_int s ++ ","
       ++ quoted "finalScore" ++ ":" ++ show_int f ++ "}")%string.

Definition scores_value (r s f : Z) : JValue :=
  JObj [ ("rulesScore", jint r); ("semanticScore", jint s);
         ("finalScore", jint f) ].

Definition provider_scoring (r s f : Z) : World :=
  provider_saying (scores_text r s f) (scores_value r s f).

(** An application whose job row is missing. *)
Definition dangling : Db :=
  mkDb [ mkUser 7 "seeker@test.com" ] [] [] [ mkApplication 5 99 7 ] [] 1.

Definition ctxA : ApplicationWithContext :=
  mkCtx (mkApplication 1 3 7)
        (mkJob 3 1 "Senior React Developer"
           "We are looking for an expert in React and Node.js."
           (Some ["React"; "Node.js"]) (Some 5))
        (mkUser 7 "seeker@test.com").

(** Two applications with different jobs and seekers. *)
Definition two_applications : Db :=
  mkDb [ mkUser 7 "seeker@test.com"; mkUser 8 "other@test.com" ]
       [ mkJobSeekerProfile 7 (Some ["React"; "Node.js"; "TypeScript"])
           (Some 6) None;
         mkJobSeekerProfile 8 (Some ["COBOL"]) (Some 0) None ]
       [ mkJob 3 1 "Senior React Developer"
           "We are looking for an expert in React and Node.js."
           (Some ["React"; "Node.js"]) (Some 5);
         mkJob 4 1 "Data Engineer" "Pipelines." (Some ["SQL"]) (Some 2) ]
       [ mkApplication 1 3 7; mkApplication 2 4 8 ]
       []
       1.

Definition ctxB : ApplicationWithContext :=
  mkCtx (mkApplication 2 4 8)
        (mkJob 4 1 "Data Engineer" "Pipelines." (Some ["SQL"]) (Some 2))
        (mkUser 8 "other@test.com").

(** The row a run without a provider ends with. *)
Definition mock_row (id i : Z) : ScreeningResult :=
  mkScreeningResult id i (Some 85) (Some 80) (Some 82)
    (Some (JArr [JStr "Matches required skills"; JStr "Good experience"]))
    (Some (Text "Strong candidate with relevant experience."))
    (Some (JArr [JStr "Describe your experience with React.";
                 JStr "How do you handle state management?"]))
    complete.

(** Scenario A once screened without a provider. *)
Definition screenedA : State :=
  snd (processApplicationAI no_provider (inject_Z 1) (fresh scenarioA)).

(** The two applications after the first has been screened without a
    provider. *)
Definition screenedA_two : State :=
  snd (processApplicationAI no_provider (inject_Z 1) (fresh two_applications)).

(** * More vocabulary: what a run writes and what it leaves alone *)


(** The primary key of [screening_results]: the ids differ, and the
    sequence is ahead of them. *)
Definition ids_well_formed (d : Db) : Prop :=
  NoDup (map screening_id (screeningResults d)) /\ serial_fresh d.

(** The rows of the other applications. *)
Definition rows_of_others (d : Db) (i : Z) : list ScreeningResult :=
  filter (fun r => negb (for_application i r)) (screeningResults d).

(** The prompt a run sends: one, when the application is found and a
    client is configured. *)
Definition prompts_of_run (w : World) (applicationId : Q) (st : State)
  : list string :=
  match number_as_int4 applicationId with
  | None => []
  | Some i =>
      match join_application (db st) i, openai w with
      | Some a, Some _ => [ prompt_of a ]
      | _, _ => []
      end
  end.

(** A provider whose reply has no content. *)
Definition provider_silent : World :=
  mkWorld (Some (fun _ => Message None))
          (fun s => if String.eqb s "{}" then Some (JObj []) else None)
          (fun _ => None).

(** ** Values that [jsonb] gives back as they were sent

    [jsonb] keeps the members of an object sorted by name and without
    duplicates, so an object is not read back as it was sent; every other
    value is.  The column cells are kept here as sent, and a statement
    that reads a cell back is made for values that hold no object. *)
Fixpoint object_free (v : JValue) : bool :=
  match v with
  | JObj _ => false
  | JArr items => forallb object_free items
  | JNull | JBool _ | JNum _ | JStr _ => true
  end.

Definition jsonb_as_sent (u : ScreeningUpdate) : bool :=
  match set_reasons u with Some v => object_free v | None => true end
  && match set_aiQuestions u with Some v => object_free v | None => true end.

(** * processApplicationAI, one await at a time

    Runs started for one application share the database and take turns
    at their awaits.  A run is followed here from await to await: a step
    sends the statement, or the request, the run is about to await and
    takes the run to its next await.  The delay, the request to the
    provider and the synchronous code after it make one step.  Followed
    alone to its end, a run does what [processApplicationAI] does
    ([alone_is_run]). *)

Inductive Point : Type :=
| Started                        (* about to await getApplication *)
| Found (a : ApplicationWithContext)
                                 (* about to await getScreeningResult *)
| Looked (a : ApplicationWithContext) (found : option ScreeningResult)
                                 (* about to await the first write *)
| Waiting (a : ApplicationWithContext) (screening : ScreeningResult)
                                 (* about to await the delay and the reply *)
| Answered (screening : ScreeningResult) (updates : ScreeningUpdate)
                                 (* about to await the success write *)
| Caught                         (* in catch, about to await
                                    getScreeningResult *)
| Refetched (screening : ScreeningResult)
                                 (* in catch, about to await the update *)
| Settled (r : Result unit).     (* the promise of the run has settled *)

(** Inside the try block: a statement that throws takes the run to its
    catch block. *)
Definition enter {A} (r : Result A * State) (next : A -> Point)
  : Point * State :=
  match r with
  | (Ok a, st) => (next a, st)
  | (Throw _, st) => (Caught, st)
  end.

(** Inside the catch block: a statement that throws rejects the run. *)
Definition leave {A} (r : Result A * State) (next : A -> Point)
  : Point * State :=
  match r with
  | (Ok a, st) => (next a, st)
  | (Throw e, st) => (Settled (Throw e), st)
  end.

Definition step (w : World) (applicationId : Q) (p : Point) (st : State)
  : Point * State :=
  match p with
  | Started =>
      enter (getApplication applicationId st)
        (fun found => match found with
                      | Some a => Found a
                      | None => Settled (Ok tt)
                      end)
  | Found a =>
      enter (getScreeningResult applicationId st) (Looked a)
  | Looked a None =>
      enter (createScreeningResult
               (mkInsert applicationId (Some processing)) st)
        (Waiting a)
  | Looked a (Some screening) =>
      enter (updateScreeningResult w (screening_id screening)
               (only_status processing) st)
        (fun _ => Waiting a screening)
  | Waiting a screening =>
      enter ((aiResponse <- evaluate w (prompt_of a) ;;
              lift (success_update aiResponse)) st)
        (Answered screening)
  | Answered screening updates =>
      enter (updateScreeningResult w (screening_id screening) updates st)
        (fun _ => Settled (Ok tt))
  | Caught =>
      leave (getScreeningResult applicationId st)
        (fun found => match found with
                      | Some screening => Refetched screening
                      | None => Settled (Ok tt)
                      end)
  | Refetched screening =>
      leave (updateScreeningResult w (screening_id screening)
               (only_status failed) st)
        (fun _ => Settled (Ok tt))
  | Settled r => (Settled r, st)
  end.

(** One run followed alone for [n] steps. *)
Fixpoint alone (n : nat) (w : World) (applicationId : Q) (p : Point)
  (st : State) : Point * State :=
  match n with
  | O => (p, st)
  | S n' =>
      let (p', st') := step w applicationId p st in
      alone n' w applicationId p' st'
  end.

(** Two runs on one database, and whose turn it is. *)
Inductive Turn : Type := First | Second.

Record Overlap : Type := mkOverlap {
  first_run : Point;
  second_run : Point;
  shared : State
}.

Definition take_turn (w : World) (id1 id2 : Q) (o : Overlap) (t : Turn)
  : Overlap :=
  match t with
  | First =>
      let (p, st) := step w id1 (first_run o) (shared o) in
      mkOverlap p (second_run o) st
  | Second =>
      let (p, st) := step w id2 (second_run o) (shared o) in
      mkOverlap (first_run o) p st
  end.

(** Two runs started together and scheduled as the list says. *)
Definition interleaved (w : World) (id1 id2 : Q) (schedule : list Turn)
  (st : State) : Overlap :=
  fold_left (take_turn w id1 id2) schedule (mkOverlap Started Started st).

(** * buildUrl (shared/routes.ts) *)

(** [s.slice(n)] *)
Fixpoint drop (n : nat) (s : string) : string :=
  match n, s with
  | O, _ => s
  | S n', String _ rest => drop n' rest
  | S _, EmptyString => EmptyString
  end.

(** The text before and the text after the first occurrence of [needle]
    in [hay]; [None] when there is none. *)
Fixpoint split_first (needle hay : string) : option (string * string) :=
  if prefix needle hay
  then Some (EmptyString, drop (String.length needle) hay)
  else match hay with
       | EmptyString => None
       | String c rest =>
           match split_first needle rest with
           | Some (before, after) => Some (String c before, after)
           | None => None
           end
       end.

(** [hay.includes(needle)] *)
Definition includes (needle hay : string) : bool :=
  match split_first needle hay with
  | Some _ => true
  | None => false
  end.

(** The replacement text of [String.prototype.replace] for a string
    pattern: in the template a dollar sign followed by a dollar sign is
    one dollar sign, followed by an ampersand it is the matched text,
    followed by a backquote the text before the match, followed by a
    quote the text after it; everything else stands for itself. *)
Fixpoint substitute (matched before after template : string) : string :=
  match template with
  | EmptyString => EmptyString
  | String c rest =>
      if Ascii.eqb c "$" then
        match rest with
        | EmptyString => String c EmptyString
        | String c' rest' =>
            if Ascii.eqb c' "$" then
              String "$" (substitute matched before after rest')
            else if Ascii.eqb c' "&" then
              matched ++ substitute matched before after rest'
            else if Ascii.eqb c' "`" then
              before ++ substitute matched before after rest'
            else if Ascii.eqb c' "'" then
              after ++ substitute matched before after rest'
            else String c (substitute matched before after rest)
        end
      else String c (substitute matched before after rest)
  end%string.

(** [hay.replace(needle, template)]: the first occurrence only. *)
Definition replace (needle template hay : string) : string :=
  match split_first needle hay with
  | Some (before, after) =>
      (before ++ substitute needle before after template ++ after)%string
  | None => hay
  end.

(** A value of [params]: a string, or a number, here an integer.
    [String] prints the decimal digits of an integer of magnitude up to
    2^53, which a JavaScript number holds exactly; [js_String] is
    [String] for those values, and the statements that read the printed
    text are made for them. *)
Inductive ParamValue : Type :=
| PStr (s : string)
| PNum (z : Z).

Definition exact_number (v : ParamValue) : bool :=
  match v with
  | PStr _ => true
  | PNum z => Z.abs z <=? 2 ^ 53
  end.

Definition js_String (v : ParamValue) : string :=
  match v with
  | PStr s => s
  | PNum z => show_int z
  end.

Definition fill (url : string) (entry : string * ParamValue) : string :=
  let (key, value) := entry in
  if includes (":" ++ key) url
  then replace (":" ++ key) (js_String value) url
  else url.

(** [params], when given, is the list [Object.entries(params)]. *)
Definition buildUrl (path : string) (params : option (list (string * ParamValue)))
  : string :=
  match params with
  | None => path
  | Some entries => fold_left fill entries path
  end.

(** No dollar sign in a text. *)
Fixpoint dollar_free (s : string) : bool :=
  match s with
  | EmptyString => true
  | String c rest => negb (Ascii.eqb c "$") && dollar_free rest
  end.

(** [pre] holds no start of an occurrence of [needle] in
    [pre ++ needle ++ post]. *)
Definition first_at (needle pre post : string) : Prop :=
  forall p, (p < String.length pre)%nat ->
            prefix needle (drop p (pre ++ needle ++ post)) = false.

(** * Submitting an application (server/routes.ts, POST /api/applications)

    The route also reads [companies] and draws an id for the new row, so
    the state of the pipeline is extended by that table and by the
    sequence of [applications].  As before only the columns read here are
    kept: an application row is its id, job and seeker; its note and its
    status 'applied' are written by the route and read by no code
    modelled here. *)

Record Company : Type := mkCompany {
  company_id : Z;
  company_name : string
}.

Record Site : Type := mkSite {
  inner : State;
  companies : list Company;
  applications_serial : Z
}.

(** [req.user], present when [req.isAuthenticated()]: the id and the role
    of the users row of the session. *)
Record SessionUser : Type := mkSessionUser {
  session_id : Z;
  session_role : string
}.

Definition with_applications (d : Db) (rows : list Application) : Db :=
  mkDb (users d) (jobSeekerProfiles d) (jobs d) rows (screeningResults d)
    (screening_serial d).

(** A row of applications survives the inner joins of
    [listApplicationsForSeeker] when its job and the company of its job
    exist. *)
Definition joins_job_and_company (site : Site) (a : Application) : bool :=
  match find (fun j => job_id j =? jobId a) (jobs (db (inner site))) with
  | Some j => existsb (fun c => company_id c =? companyId j) (companies site)
  | None => false
  end.

(** [listApplicationsForSeeker(seekerId)]: the applications of the seeker,
    here without the joined columns and in table order; the route only
    asks whether some row has a given [jobId]. *)
Definition listApplicationsForSeeker (uid : Z) (site : Site)
  : list Application :=
  filter (fun a => (seekerId a =? uid) && joins_job_and_company site a)
         (applications (db (inner site))).

(** The sequence of [applications] after one id has been drawn. *)
Definition skip_application_id (site : Site) : Site :=
  mkSite (inner site) (companies site) (applications_serial site + 1).

(** [createApplication({ jobId, seekerId, note, status: "applied" })]: one
    INSERT ... RETURNING.  A job id that is no int4 and a note holding NUL
    are refused as parameters, before the statement runs.  The row, with
    its id drawn from the sequence, must then name a job and a user; a
    row the foreign keys refuse is not inserted, yet its id stays drawn. *)
Definition createApplication (job_q : Q) (uid : Z) (note : option string)
  (site : Site) : Result Application * Site :=
  let d := db (inner site) in
  match number_as_int4 job_q with
  | None => (Throw DbError, site)
  | Some j =>
      if match note with Some s => has_nul s | None => false end
      then (Throw DbError, site)
      else if existsb (fun x => job_id x =? j) (jobs d)
              && existsb (fun u => user_id u =? uid) (users d)
      then
        let row := mkApplication (applications_serial site) j uid in
        (Ok row,
         mkSite (mkState (with_applications d (applications d ++ [row]))
                   (provider_calls (inner site)) (writes (inner site)))
                (companies site)
                (applications_serial site + 1))
      else (Throw DbError, skip_application_id site)
  end.

(** [api.applications.apply.input], that is
    [z.object({ jobId: z.number(), note: z.string().optional() })]. *)
Definition apply_input_parse (req_body : JValue)
  : Exn + (Q * option string) :=
  match req_body with
  | JObj members =>
      match last_member "jobId" members, last_member "note" members with
      | Some (JNum q), None => inr (q, None)
      | Some (JNum q), Some (JStr s) => inr (q, Some s)
      | _, _ => inl ZodError
      end
  | _ => inl ZodError
  end.

(** What the route answers. *)
Inductive BadRequestMessage : Type :=
| AlreadyApplied       (* "Already applied" *)
| FirstZodIssue.       (* err.errors[0].message *)

Inductive ApplyAnswer : Type :=
| Unauthorized                          (* 401, no body *)
| BadRequest (message : BadRequestMessage)   (* 400, { message } *)
| Created (row : Application).          (* 201, the new row *)

Record Applied : Type := mkApplied {
  answer : option ApplyAnswer;     (* [None]: the handler threw *)
  started : list (M unit);         (* runs started and not awaited *)
  site_after : Site
}.

(** [a.jobId === input.jobId] *)
Definition same_job (q : Q) (a : Application) : bool :=
  Qeq_bool (inject_Z (jobId a)) q.

Definition apply_route (w : World) (user : option SessionUser)
  (req_body : JValue) (site : Site) : Applied :=
  match user with
  | None => mkApplied (Some Unauthorized) [] site
  | Some u =>
      if negb (String.eqb (session_role u) "seeker")
      then mkApplied (Some Unauthorized) [] site
      else
        match apply_input_parse req_body with
        | inl _ => mkApplied (Some (BadRequest FirstZodIssue)) [] site
        | inr (job_q, note) =>
            if existsb (same_job job_q)
                 (listApplicationsForSeeker (session_id u) site)
            then mkApplied (Some (BadRequest AlreadyApplied)) [] site
            else
              match createApplication job_q (session_id u) note site with
              | (Throw _, site') => mkApplied None [] site'
              | (Ok row, site') =>
                  mkApplied (Some (Created row))
                    [ processApplicationAI w (inject_Z (app_id row)) ]
                    site'
              end
        end
  end.

(** The site once the runs a request started have settled. *)
Definition settled (r : Applied) : Site :=
  mkSite (settle (started r) (inner (site_after r)))
         (companies (site_after r))
         (applications_serial (site_after r)).

(** ** Consistency of a site

    The foreign keys the route relies on, the primary key of
    [applications], and the rule the route is there to keep: one
    application per job and seeker. *)

Definition job_and_seeker (a : Application) : Z * Z := (jobId a, seekerId a).

Record site_ok (site : Site) : Prop := mkSiteOk {
  ok_joins :
    Forall (fun a => joins_job_and_company site a = true)
      (applications (db (inner site)));
  ok_serial :
    Forall (fun a => app_id a < applications_serial site)
      (applications (db (inner site)));
  ok_companies :
    Forall (fun j => existsb (fun c => company_id c =? companyId j)
                       (companies site) = true)
      (jobs (db (inner site)));
  ok_once :
    NoDup (map job_and_seeker (applications (db (inner site))))
}.

(** The checks of a submission that goes through: a seeker's session, a
    well-formed body naming an existing job by an int4, a note without
    NUL, and no earlier application of this seeker for this job. *)
Record accepted_submission (site : Site) (u : SessionUser)
  (req_body : JValue) (j : Z) : Prop := mkAccepted {
  acc_role : session_role u = "seeker";
  acc_body : exists q note,
      apply_input_parse req_body = inr (q, note)
      /\ number_as_int4 q = Some j
      /\ match note with Some s => has_nul s | None => false end = false;
  acc_job : existsb (fun x => job_id x =? j) (jobs (db (inner site))) = true;
  acc_user :
    existsb (fun x => user_id x =? session_id u) (users (db (inner site)))
    = true;
  acc_new :
    Forall (fun a => seekerId a = session_id u -> jobId a <> j)
      (applications (db (inner site)))
}.

(** Test data: scenario A as a site, with the company of its job. *)
Definition siteA : Site :=
  mkSite (fresh (with_applications scenarioA []))
         [ mkCompany 1 "Tech Corp" ] 1.

Definition seeker7 : SessionUser := mkSessionUser 7 "seeker".

Definition apply_body (j : Z) : JValue := JObj [ ("jobId", jint j) ].

(** * Accounts and seed data (server/auth.ts, server/storage.ts,
      [seedDatabase] of server/routes.ts)

    The tables these functions write, with their sequences.  A user row
    is kept whole (but for its timestamp), since sign-up and log-in read
    its password and role; of the other rows the columns kept are those of
    the records above. *)

Record Account : Type := mkAccount {
  account_id : Z;
  account_email : string;
  account_password : string;
  account_role : string
}.

Record EmployerProfile : Type := mkEmployerProfile {
  ep_id : Z;
  ep_userId : Z;
  ep_companyId : Z
}.

Record Platform : Type := mkPlatform {
  accounts : list Account;
  firms : list Company;
  employerProfiles : list EmployerProfile;
  postings : list Job;
  seekerProfiles : list JobSeekerProfile;
  accounts_serial : Z;
  firms_serial : Z;
  employer_profiles_serial : Z;
  postings_serial : Z
}.

Definition PM (A : Type) : Type := Platform -> Result A * Platform.

Definition pret {A} (a : A) : PM A := fun p => (Ok a, p).
Definition pthrow {A} (e : Exn) : PM A := fun p => (Throw e, p).
Definition pbind {A B} (m : PM A) (k : A -> PM B) : PM B :=
  fun p => match m p with
           | (Ok a, p') => k a p'
           | (Throw e, p') => (Throw e, p')
           end.

Declare Scope platform_scope.
Delimit Scope platform_scope with platform.
Notation "x <-- m ;; k" := (pbind m (fun x => k))
  (at level 61, m at next level, right associativity) : platform_scope.
Notation "m ;;; k" := (pbind m (fun _ => k))
  (at level 61, right associativity) : platform_scope.

(** [getUserByEmail(email)] and [getUser(id)]: the first row selected.
    An email holding NUL is refused as a parameter. *)
Definition getUserByEmail (email : string) : PM (option Account) :=
  fun p =>
    if has_nul email then (Throw DbError, p)
    else (Ok (find (fun u => String.eqb (account_email u) email)
                   (accounts p)), p).

Definition getUser (id : Z) : PM (option Account) :=
  fun p =>
    if in_int4 id
    then (Ok (find (fun u => account_id u =? id) (accounts p)), p)
    else (Throw DbError, p).

(** A sequence after one id has been drawn for a row that a constraint
    then refused: the row is not inserted, the id stays drawn. *)
Definition skip_account_id (p : Platform) : Platform :=
  mkPlatform (accounts p) (firms p) (employerProfiles p) (postings p)
    (seekerProfiles p) (accounts_serial p + 1) (firms_serial p)
    (employer_profiles_serial p) (postings_serial p).

Definition skip_employer_profile_id (p : Platform) : Platform :=
  mkPlatform (accounts p) (firms p) (employerProfiles p) (postings p)
    (seekerProfiles p) (accounts_serial p) (firms_serial p)
    (employer_profiles_serial p + 1) (postings_serial p).

Definition skip_posting_id (p : Platform) : Platform :=
  mkPlatform (accounts p) (firms p) (employerProfiles p) (postings p)
    (seekerProfiles p) (accounts_serial p) (firms_serial p)
    (employer_profiles_serial p) (postings_serial p + 1).

Definition int4_or_null (z : option Z) : bool :=
  match z with
  | Some n => in_int4 n
  | None => true
  end.

Definition texts_have_nul (l : option (list string)) : bool :=
  match l with
  | Some items => existsb has_nul items
  | None => false
  end.

(** [createUser({ email, password, role })]: one INSERT ... RETURNING.
    A text holding NUL is refused as a parameter; an email already there
    is refused by the unique constraint of [users.email]. *)
Definition createUser (email password role : string) : PM Account :=
  fun p =>
    if has_nul email || has_nul password || has_nul role
    then (Throw DbError, p)
    else if existsb (fun u => String.eqb (account_email u) email) (accounts p)
    then (Throw DbError, skip_account_id p)
    else
      let row := mkAccount (accounts_serial p) email password role in
      (Ok row,
       mkPlatform (accounts p ++ [row]) (firms p) (employerProfiles p)
         (postings p) (seekerProfiles p) (accounts_serial p + 1)
         (firms_serial p) (employer_profiles_serial p) (postings_serial p)).

(** [createCompany({ name, ... })] *)
Definition createCompany (name : string) : PM Company :=
  fun p =>
    if has_nul name then (Throw DbError, p)
    else
      let row := mkCompany (firms_serial p) name in
      (Ok row,
       mkPlatform (accounts p) (firms p ++ [row]) (employerProfiles p)
         (postings p) (seekerProfiles p) (accounts_serial p)
         (firms_serial p + 1) (employer_profiles_serial p)
         (postings_serial p)).

(** [createEmployerProfile({ userId, companyId })]: both are int4
    columns and foreign keys. *)
Definition createEmployerProfile (userId companyId : Z)
  : PM EmployerProfile :=
  fun p =>
    if negb (in_int4 userId && in_int4 companyId)
    then (Throw DbError, p)
    else if existsb (fun u => account_id u =? userId) (accounts p)
            && existsb (fun c => company_id c =? companyId) (firms p)
    then
      let row := mkEmployerProfile (employer_profiles_serial p) userId
                   companyId in
      (Ok row,
       mkPlatform (accounts p) (firms p) (employerProfiles p ++ [row])
         (postings p) (seekerProfiles p) (accounts_serial p)
         (firms_serial p) (employer_profiles_serial p + 1)
         (postings_serial p))
    else (Throw DbError, skip_employer_profile_id p).

(** [createJob({ companyId, title, description, requiredSkills, minYears,
    ... })]: the company is a foreign key. *)
Definition createJob (company : Z) (job_title job_description : string)
  (required : option (list string)) (years : option Z) : PM Job :=
  fun p =>
    if negb (in_int4 company && int4_or_null years)
       || has_nul job_title || has_nul job_description
       || texts_have_nul required
    then (Throw DbError, p)
    else if existsb (fun c => company_id c =? company) (firms p)
    then
      let row := mkJob (postings_serial p) company job_title
                   job_description required years in
      (Ok row,
       mkPlatform (accounts p) (firms p) (employerProfiles p)
         (postings p ++ [row]) (seekerProfiles p) (accounts_serial p)
         (firms_serial p) (employer_profiles_serial p)
         (postings_serial p + 1))
    else (Throw DbError, skip_posting_id p).

(** [createSeekerProfile({ userId, skills, experienceYears, ... })]: the
    user is a foreign key.  The id of the row is not kept, and so neither
    is its sequence. *)
Definition createSeekerProfile (userId : Z) (seeker_skills : option (list string))
  (years : option Z) : PM JobSeekerProfile :=
  fun p =>
    if negb (in_int4 userId && int4_or_null years)
       || texts_have_nul seeker_skills
    then (Throw DbError, p)
    else if existsb (fun u => account_id u =? userId) (accounts p)
    then
      let row := mkJobSeekerProfile userId seeker_skills years None in
      (Ok row,
       mkPlatform (accounts p) (firms p) (employerProfiles p) (postings p)
         (seekerProfiles p ++ [row]) (accounts_serial p) (firms_serial p)
         (employer_profiles_serial p) (postings_serial p))
    else (Throw DbError, p).

Local Open Scope platform_scope.

(** ** auth.ts *)

(** The verify function of the local strategy: the user of that email,
    if the password given is the stored one. *)
Definition verify (email password : string) : PM (option Account) :=
  user <-- getUserByEmail email ;;
  match user with
  | None => pret None
  | Some u =>
      if String.eqb (account_password u) password
      then pret (Some u)
      else pret None
  end.

(** What [POST /api/auth/signup] answers. *)
Inductive SignupAnswer : Type :=
| UserAlreadyExists            (* 400 "User already exists" *)
| SignedUp (user : Account).   (* 201, the user, logged in *)

(** [role || "seeker"] for a role that is a string or absent. *)
Definition role_or_seeker (role : option string) : string :=
  match role with
  | None => "seeker"
  | Some EmptyString => "seeker"
  | Some r => r
  end.

(** [POST /api/auth/signup] for a body whose email and password are
    strings and whose role is a string or absent. *)
Definition signup (email password : string) (role : option string)
  : PM SignupAnswer :=
  existing <-- getUserByEmail email ;;
  match existing with
  | Some _ => pret UserAlreadyExists
  | None =>
      user <-- createUser email password (role_or_seeker role) ;;
      pret (SignedUp user)
  end.

(** ** seedDatabase (server/routes.ts) *)

Definition seedDatabase : PM unit :=
  existingUser <-- getUserByEmail "employer@test.com" ;;
  match existingUser with
  | Some _ => pret tt
  | None =>
      employer <-- createUser "employer@test.com" "password" "employer" ;;
      company <-- createCompany "Tech Corp" ;;
      createEmployerProfile (account_id employer) (company_id company) ;;;
      job <-- createJob (company_id company) "Senior React Developer"
                "We are looking for an expert in React and Node.js."
                (Some [ "React"; "Node.js"; "TypeScript" ]) (Some 5) ;;
      seeker <-- createUser "seeker@test.com" "password" "seeker" ;;
      createSeekerProfile (account_id seeker)
        (Some [ "React"; "TypeScript"; "Tailwind" ]) (Some 4) ;;;
      pret tt
  end.

Local Close Scope platform_scope.

(** Distinct emails, as the unique constraint keeps them. *)
Definition emails_distinct (p : Platform) : Prop :=
  NoDup (map account_email (accounts p)).

Definition has_email (email : string) (p : Platform) : bool :=
  existsb (fun u => String.eqb (account_email u) email) (accounts p).

Definition empty_platform : Platform :=
  mkPlatform [] [] [] [] [] 1 1 1 1.

(** The rows [seedDatabase] creates on a platform [p]. *)
Definition seed_employer (p : Platform) : Account :=
  mkAccount (accounts_serial p) "employer@test.com" "password" "employer".

Definition seed_seeker (p : Platform) : Account :=
  mkAccount (accounts_serial p + 1) "seeker@test.com" "password" "seeker".

Definition seed_company (p : Platform) : Company :=
  mkCompany (firms_serial p) "Tech Corp".

Definition seed_employer_profile (p : Platform) : EmployerProfile :=
  mkEmployerProfile (employer_profiles_serial p) (accounts_serial p)
    (firms_serial p).

Definition seed_job (p : Platform) : Job :=
  mkJob (postings_serial p) (firms_serial p) "Senior React Developer"
    "We are looking for an expert in React and Node.js."
    (Some [ "React"; "Node.js"; "TypeScript" ]) (Some 5).

Definition seed_seeker_profile (p : Platform) : JobSeekerProfile :=
  mkJobSeekerProfile (accounts_serial p + 1)
    (Some [ "React"; "TypeScript"; "Tailwind" ]) (Some 4) None.

(** The platform once the employer, the company, the employer profile
    and the job of the seed are in. *)
Definition half_seeded (p : Platform) : Platform :=
  mkPlatform (accounts p ++ [seed_employer p])
    (firms p ++ [seed_company p])
    (employerProfiles p ++ [seed_employer_profile p])
    (postings p ++ [seed_job p])
    (seekerProfiles p)
    (accounts_serial p + 1) (firms_serial p + 1)
    (employer_profiles_serial p + 1) (postings_serial p + 1).

Definition seeded (p : Platform) : Platform :=
  mkPlatform ((accounts p ++ [seed_employer p]) ++ [seed_seeker p])
    (firms p ++ [seed_company p])
    (employerProfiles p ++ [seed_employer_profile p])
    (postings p ++ [seed_job p])
    (seekerProfiles p ++ [seed_seeker_profile p])
    (accounts_serial p + 1 + 1) (firms_serial p + 1)
    (employer_profiles_serial p + 1) (postings_serial p + 1).

(** The ids the seed passes on, those of its two users and of its
    company, fit an int4 column: the sequences have not run out. *)
Definition seed_ids_fit (p : Platform) : bool :=
  in_int4 (accounts_serial p) && in_int4 (accounts_serial p + 1)
  && in_int4 (firms_serial p).

(** An operation that leaves a taken email taken. *)
Definition keeps_email {A} (email : string) (m : PM A) : Prop :=
  forall p, has_email email p = true -> has_email email (snd (m p)) = true.

(** A platform where the seeker's email of the seed is already taken. *)
Definition seeker_taken : Platform :=
  mkPlatform [ mkAccount 1 "seeker@test.com" "mine" "seeker" ] [] [] [] []
    2 1 1 1.

(** * The employer's list of applicants (server/storage.ts,
      [listApplicationsForJob])

    The rows of applications for a job, inner-joined with the seeker's
    users row and with job_seeker_profiles, left-joined with
    screening_results.  The rows come here in table order; the source
    sorts them by creation time, which is not kept. *)

Record ListedApplication : Type := mkListed {
  listed_application : Application;
  listed_seeker : User;
  listed_profile : JobSeekerProfile;
  listed_screening : option ScreeningResult
}.

Definition left_join_screening (d : Db) (a : Application)
  : list (option ScreeningResult) :=
  match filter (for_application (app_id a)) (screeningResults d) with
  | [] => [ None ]
  | rows => map Some rows
  end.

Definition join_listed (d : Db) (a : Application) : list ListedApplication :=
  flat_map
    (fun u =>
       if user_id u =? seekerId a then
         flat_map
           (fun pr =>
              if profile_userId pr =? user_id u then
                map (mkListed a u pr) (left_join_screening d a)
              else [])
           (jobSeekerProfiles d)
       else [])
    (users d).

Definition listApplicationsForJob (job_q : Q)
  : M (list ListedApplication) :=
  j <- the_int4 job_q ;;
  fun st =>
    (Ok (flat_map (fun a => if jobId a =? j then join_listed (db st) a
                            else [])
                  (applications (db st))), st).

(** Test data: the one seeker of scenario A has applied and has no
    profile. *)
Definition siteA_without_profile : Site :=
  mkSite (fresh (mkDb (users scenarioA) [] (jobs scenarioA) [] [] 1))
         [ mkCompany 1 "Tech Corp" ] 1.

(** * Lemmas on the embedding *)

(** ** The monad *)

Lemma bind_ret_l {A B} (a : A) (k : A -> M B) (st : State) :
  bind (ret a) k st = k a st.
Proof. reflexivity. Qed.

Lemma bind_ret_r {A} (m : M A) (st : State) : bind m ret st = m st.
Proof. unfold bind, ret. destruct (m st) as [[a|e] st']; reflexivity. Qed.

Lemma bind_assoc {A B C} (m : M A) (k : A -> M B) (h : B -> M C)
  (st : State) :
  bind (bind m k) h st = bind m (fun a => bind (k a) h) st.
Proof. unfold bind. destruct (m st) as [[a|e] st']; reflexivity. Qed.

Lemma try_catch_ret {A} (a : A) (handler : Exn -> M A) (st : State) :
  try_catch (ret a) handler st = (Ok a, st).
Proof. reflexivity. Qed.

Lemma try_catch_throw {A} (e : Exn) (handler : Exn -> M A) (st : State) :
  try_catch (throw e) handler st = handler e st.
Proof. reflexivity. Qed.

(** ** The aggregation rule of the specification *)

Lemma spec_finalScore_range (r s : Z) :
  0 <= SpecWords.finalScore r s <= 100.
Proof. unfold SpecWords.finalScore, SpecWords.clamp. lia. Qed.

Lemma spec_finalScore_corners :
  SpecWords.finalScore 0 0 = 0 /\ SpecWords.finalScore 100 100 = 100.
Proof. split; reflexivity. Qed.

Lemma spec_finalScore_monotone (r r' s s' : Z) :
  r <= r' -> s <= s' ->
  SpecWords.finalScore r s <= SpecWords.finalScore r' s'.
Proof.
  intros Hr Hs. unfold SpecWords.finalScore, SpecWords.clamp.
  assert ((4 * r + 6 * s + 5) / 10 <= (4 * r' + 6 * s' + 5) / 10)
    by (apply Z.div_le_mono; lia).
  lia.
Qed.

(** ** Rows and assignments *)

Lemma bind_set_only_status (w : World) (s : AiStatus) :
  bind_set w (only_status s) = inr (status_assignment s).
Proof. reflexivity. Qed.

Lemma apply_status_assignment (s : AiStatus) (r : ScreeningResult) :
  apply_assignment (status_assignment s) r = with_status s r.
Proof. reflexivity. Qed.

Lemma applicationId_apply (a : Assignment) (r : ScreeningResult) :
  applicationId (apply_assignment a r) = applicationId r.
Proof. reflexivity. Qed.

Lemma screening_id_apply (a : Assignment) (r : ScreeningResult) :
  screening_id (apply_assignment a r) = screening_id r.
Proof. reflexivity. Qed.

Section Rows.

Variable i : Z.

Lemma find_update_where_id (k : Z) (a : Assignment)
  (rows : list ScreeningResult) :
  find (for_application i) (update_where_id k a rows)
  = option_map
      (fun r => if screening_id r =? k then apply_assignment a r else r)
      (find (for_application i) rows).
Proof.
  induction rows as [|r rows IH]; simpl; [reflexivity|].
  assert (E : for_application i
                (if screening_id r =? k then apply_assignment a r else r)
              = for_application i r)
    by (destruct (screening_id r =? k); reflexivity).
  rewrite E. destruct (for_application i r); [reflexivity | exact IH].
Qed.

Lemma find_app_none (rows : list ScreeningResult) (row : ScreeningResult) :
  find (for_application i) rows = None ->
  applicationId row = i ->
  find (for_application i) (rows ++ [row]) = Some row.
Proof.
  intros Hnone Hrow.
  induction rows as [|r rows IH]; simpl in *.
  - unfold for_application. rewrite Hrow, Z.eqb_refl. reflexivity.
  - destruct (for_application i r); [discriminate | auto].
Qed.

Lemma find_none_count (rows : list ScreeningResult) :
  find (for_application i) rows = None ->
  List.length (filter (for_application i) rows) = 0%nat.
Proof.
  induction rows as [|r rows IH]; simpl; [reflexivity|].
  destruct (for_application i r); [discriminate | exact IH].
Qed.

Lemma filter_update_where_id (k : Z) (a : Assignment)
  (rows : list ScreeningResult) :
  List.length (filter (for_application i) (update_where_id k a rows))
  = List.length (filter (for_application i) rows).
Proof.
  induction rows as [|r rows IH]; simpl; [reflexivity|].
  assert (E : for_application i
                (if screening_id r =? k then apply_assignment a r else r)
              = for_application i r)
    by (destruct (screening_id r =? k); reflexivity).
  rewrite E. destruct (for_application i r); simpl; congruence.
Qed.

End Rows.

Lemma update_where_id_twice (k : Z) (a b : Assignment)
  (rows : list ScreeningResult) :
  update_where_id k b (update_where_id k a rows)
  = map (fun r => if screening_id r =? k
                  then apply_assignment b (apply_assignment a r) else r) rows.
Proof.
  unfold update_where_id. rewrite map_map. apply map_ext. intro r.
  destruct (screening_id r =? k) eqn:E.
  - rewrite screening_id_apply, E. reflexivity.
  - rewrite E. reflexivity.
Qed.

Lemma update_where_id_length (k : Z) (a : Assignment)
  (rows : list ScreeningResult) :
  List.length (update_where_id k a rows) = List.length rows.
Proof. apply length_map. Qed.

(** ** The steps of a run, one equation each *)

Section Steps.

Variable w : World.
Variables (applicationId : Q) (i : Z).
Hypothesis Hid : number_as_int4 applicationId = Some i.

Lemma getApplication_eq (st : State) :
  getApplication applicationId st = (Ok (join_application (db st) i), st).
Proof. unfold getApplication, bind, the_int4. rewrite Hid. reflexivity. Qed.

Lemma getScreeningResult_eq (st : State) :
  getScreeningResult applicationId st
  = (Ok (select_screening (db st) i), st).
Proof.
  unfold getScreeningResult, bind, the_int4. rewrite Hid. reflexivity.
Qed.

Lemma updateScreeningResult_status (k : Z) (s : AiStatus) (st : State) :
  exists r,
    updateScreeningResult w k (only_status s) st
    = (Ok r, write_update k (only_status s) (status_assignment s) st).
Proof. eexists. reflexivity. Qed.

Lemma join_application_exists (d : Db) (a : ApplicationWithContext) :
  join_application d i = Some a ->
  existsb (fun x => app_id x =? i) (applications d) = true.
Proof.
  unfold join_application. intro H.
  destruct (find _ (applications d)) as [x|] eqn:F; [|discriminate].
  apply existsb_exists. exists x. apply find_some in F. exact F.
Qed.

Lemma mark_processing_eq (st : State) (a : ApplicationWithContext) :
  join_application (db st) i = Some a ->
  mark_processing w applicationId st
  = (Ok (fst (marked i st)), snd (marked i st)).
Proof.
  intro Ha. unfold mark_processing, bind, marked.
  rewrite getScreeningResult_eq.
  destruct (select_screening (db st) i) as [s|] eqn:S.
  - reflexivity.
  - unfold createScreeningResult, bind, the_int4.
    cbn [ins_applicationId ins_aiStatus]. rewrite Hid. unfold ret.
    rewrite (join_application_exists _ _ Ha). reflexivity.
Qed.

Lemma select_marked (st : State) :
  select_screening (db (snd (marked i st))) i
  = Some (with_status processing (fst (marked i st))).
Proof.
  unfold marked, select_screening.
  destruct (find (for_application i) (screeningResults (db st)))
    as [s|] eqn:S; simpl.
  - rewrite find_update_where_id, S. simpl.
    rewrite Z.eqb_refl. reflexivity.
  - apply find_app_none; [exact S | reflexivity].
Qed.

Lemma evaluate_eq (prompt : string) (st : State) :
  evaluate w prompt st
  = (match evaluation w prompt with inr v => Ok v | inl e => Throw e end,
     sent w prompt st).
Proof.
  unfold evaluate, evaluation, sent.
  destruct (openai w) as [client|]; [|reflexivity].
  unfold bind, chat_completions_create.
  destruct (client prompt) as [| |[text|]]; try reflexivity.
  - simpl. unfold lift.
    destruct text; simpl; destruct (parse w _); reflexivity.
  - simpl. unfold lift. destruct (parse w _); reflexivity.
Qed.

Lemma success_update_sets_status (v : JValue) (u : ScreeningUpdate) :
  success_update v = inr u -> set_aiStatus u = Some complete.
Proof.
  destruct v; cbn; intro H; inversion H; reflexivity.
Qed.

Lemma has_values (u : ScreeningUpdate) (s : AiStatus) :
  set_aiStatus u = Some s -> no_values u = false.
Proof.
  destruct u as [r sm f rs su q st]; simpl. intros ->.
  destruct r, sm, f, rs, su, q; reflexivity.
Qed.

Lemma on_failure_eq (e : Exn) (st : State) (s : ScreeningResult) :
  select_screening (db st) i = Some s ->
  on_failure w applicationId e st
  = (Ok tt, write_update (screening_id s) (only_status failed)
              (status_assignment failed) st).
Proof.
  intro S. unfold on_failure, bind.
  rewrite getScreeningResult_eq, S. reflexivity.
Qed.

End Steps.

Lemma updateScreeningResult_eq (w : World) (k : Z) (u : ScreeningUpdate)
  (a : Assignment) (st : State) :
  no_values u = false ->
  bind_set w u = inr a ->
  exists r, updateScreeningResult w k u st = (Ok r, write_update k u a st).
Proof.
  intros Hv Hb. unfold updateScreeningResult, bind. rewrite Hv, Hb.
  eexists. reflexivity.
Qed.

Lemma updateScreeningResult_rejected (w : World) (k : Z)
  (u : ScreeningUpdate) (e : Exn) (st : State) :
  no_values u = false ->
  bind_set w u = inl e ->
  updateScreeningResult w k u st = (Throw e, st).
Proof.
  intros Hv Hb. unfold updateScreeningResult, bind. rewrite Hv, Hb.
  reflexivity.
Qed.

Lemma db_sent (w : World) (prompt : string) (st : State) :
  db (sent w prompt st) = db st.
Proof. unfold sent. destruct (openai w); reflexivity. Qed.

Lemma writes_sent (w : World) (prompt : string) (st : State) :
  writes (sent w prompt st) = writes st.
Proof. unfold sent. destruct (openai w); reflexivity. Qed.

(** ** The run as a whole *)

Section Run.

Variable w : World.
Variables (applicationId : Q) (i : Z).
Hypothesis Hid : number_as_int4 applicationId = Some i.
Variables (st : State) (a : ApplicationWithContext).
Hypothesis Happ : join_application (db st) i = Some a.

Let s := fst (marked i st).
Let st1 := snd (marked i st).
Let st2 := sent w (prompt_of a) st1.

(** The body either performs the success write or throws in the state
    reached after the prompt. *)
Lemma screening_body_eq :
  screening_body w applicationId st
  = match accepted_update w (prompt_of a) with
    | inr (_, u, asg) => (Ok tt, write_update (screening_id s) u asg st2)
    | inl e => (Throw e, st2)
    end.
Proof.
  unfold screening_body, bind.
  rewrite (getApplication_eq applicationId i Hid), Happ.
  rewrite (mark_processing_eq w applicationId i Hid st a Happ).
  fold s st1. rewrite evaluate_eq. fold st2.
  unfold accepted_update.
  destruct (evaluation w (prompt_of a)) as [e|v]; [reflexivity|].
  unfold lift at 1.
  destruct (success_update v) as [e|u] eqn:Hu; [reflexivity|].
  unfold ret at 1.
  pose proof (has_values u complete (success_update_sets_status v u Hu))
    as Hv.
  destruct (bind_set w u) as [e|asg] eqn:Hb.
  - rewrite (updateScreeningResult_rejected w _ u e st2 Hv Hb).
    reflexivity.
  - destruct (updateScreeningResult_eq w (screening_id s) u asg st2 Hv Hb)
      as [r Hr].
    rewrite Hr. reflexivity.
Qed.

Theorem run_existing :
  processApplicationAI w applicationId st = (Ok tt, finished w a i st).
Proof.
  unfold processApplicationAI, try_catch.
  rewrite screening_body_eq.
  unfold finished. fold s st1 st2.
  destruct (accepted_update w (prompt_of a)) as [e|[[v u] asg]].
  - apply on_failure_eq with (i := i) (s := with_status processing s);
      [exact Hid|].
    unfold st2. rewrite db_sent. apply select_marked.
  - reflexivity.
Qed.

End Run.

(** A run whose identifier is no int4 is rejected by the first statement,
    and again by the statement of the handler: it throws, having written
    nothing. *)
Lemma run_bad_id (w : World) (applicationId : Q) (st : State) :
  number_as_int4 applicationId = None ->
  processApplicationAI w applicationId st = (Throw DbError, st).
Proof.
  intro H. unfold processApplicationAI, try_catch, screening_body, bind,
    getApplication, on_failure, getScreeningResult, bind, the_int4.
  rewrite H. reflexivity.
Qed.

Lemma run_not_found (w : World) (applicationId : Q) (i : Z) (st : State) :
  number_as_int4 applicationId = Some i ->
  join_application (db st) i = None ->
  processApplicationAI w applicationId st = (Ok tt, st).
Proof.
  intros Hid Hnone. unfold processApplicationAI, try_catch, screening_body,
    bind.
  rewrite (getApplication_eq applicationId i Hid), Hnone. reflexivity.
Qed.

(** ** What the last write of a run assigns *)

Lemma bind_param_bound {T} (column : JValue -> Exn + option T)
  (v : option JValue) (f : option T -> option T) :
  bind_param column v = inr f -> forall old, f old = bound column v old.
Proof.
  unfold bind_param, bound. destruct v as [c|].
  - destruct (column c); intro H; inversion H; reflexivity.
  - intro H; inversion H; reflexivity.
Qed.

Lemma bind_set_inv (w : World) (u : ScreeningUpdate) (asg : Assignment) :
  bind_set w u = inr asg ->
  forall r,
    apply_assignment asg r
    = mkScreeningResult (screening_id r) (applicationId r)
        (bound_cell w (set_rulesScore u) (rulesScore r))
        (bound_cell w (set_semanticScore u) (semanticScore r))
        (bound_cell w (set_finalScore u) (finalScore r))
        (bound jsonb_param (set_reasons u) (reasons r))
        (bound text_param (set_aiSummary u) (aiSummary r))
        (bound jsonb_param (set_aiQuestions u) (aiQuestions r))
        (assign (set_aiStatus u) (aiStatus r)).
Proof.
  unfold bind_set, bound_cell.
  destruct (bind_param (int4_param w) (set_rulesScore u)) as [|f1] eqn:E1;
    [discriminate|].
  destruct (bind_param (int4_param w) (set_semanticScore u)) as [|f2] eqn:E2;
    [discriminate|].
  destruct (bind_param (int4_param w) (set_finalScore u)) as [|f3] eqn:E3;
    [discriminate|].
  destruct (bind_param jsonb_param (set_reasons u)) as [|f4] eqn:E4;
    [discriminate|].
  destruct (bind_param text_param (set_aiSummary u)) as [|f5] eqn:E5;
    [discriminate|].
  destruct (bind_param jsonb_param (set_aiQuestions u)) as [|f6] eqn:E6;
    [discriminate|].
  intros H r; inversion H; subst asg. unfold apply_assignment; cbn.
  rewrite (bind_param_bound _ _ _ E1), (bind_param_bound _ _ _ E2),
    (bind_param_bound _ _ _ E3), (bind_param_bound _ _ _ E4),
    (bind_param_bound _ _ _ E5), (bind_param_bound _ _ _ E6).
  reflexivity.
Qed.

Lemma success_update_fields (v : JValue) (u : ScreeningUpdate) :
  success_update v = inr u ->
  u = mkUpdate (prop v "rulesScore") (prop v "semanticScore")
        (prop v "finalScore") (prop v "reasons") (prop v "summary")
        (prop v "questions") (Some complete).
Proof.
  destruct v; cbn; intro H; inversion H; reflexivity.
Qed.

Lemma accepted_update_inv (w : World) (prompt : string) (v : JValue)
  (u : ScreeningUpdate) (asg : Assignment) :
  accepted_update w prompt = inr (v, u, asg) ->
  evaluation w prompt = inr v /\ success_update v = inr u
  /\ bind_set w u = inr asg.
Proof.
  unfold accepted_update.
  destruct (evaluation w prompt) as [|v']; [discriminate|].
  destruct (success_update v') as [|u'] eqn:U; [discriminate|].
  destruct (bind_set w u') as [|a'] eqn:B; [discriminate|].
  intro H; inversion H; subst. auto.
Qed.

Lemma final_status (w : World) (prompt : string) (old : AiStatus) :
  new_aiStatus (final_assignment w prompt) old
  = match accepted_update w prompt with
    | inr _ => complete
    | inl _ => failed
    end.
Proof.
  unfold final_assignment.
  destruct (accepted_update w prompt) as [e|[[v u] asg]] eqn:A;
    [reflexivity|].
  apply accepted_update_inv in A. destruct A as (_ & U & B).
  pose proof (bind_set_inv w u asg B (blank_row 0 0 old)) as H.
  apply (f_equal aiStatus) in H. cbn in H.
  rewrite H, (success_update_sets_status v u U). reflexivity.
Qed.

Section Finished.

Variable w : World.
Variables (a : ApplicationWithContext) (i : Z) (st : State).

Lemma finished_eq :
  finished w a i st
  = write_update (screening_id (fst (marked i st)))
      (final_update w (prompt_of a)) (final_assignment w (prompt_of a))
      (sent w (prompt_of a) (snd (marked i st))).
Proof.
  unfold finished, final_update, final_assignment.
  destruct (accepted_update w (prompt_of a)) as [e|[[v u] asg]];
    reflexivity.
Qed.

Lemma rows_finished :
  screeningResults (db (finished w a i st))
  = update_where_id (screening_id (fst (marked i st)))
      (final_assignment w (prompt_of a))
      (screeningResults (db (snd (marked i st)))).
Proof. rewrite finished_eq. cbn. rewrite db_sent. reflexivity. Qed.

Lemma select_finished :
  select_screening (db (finished w a i st)) i
  = Some (apply_assignment (final_assignment w (prompt_of a))
            (with_status processing (fst (marked i st)))).
Proof.
  unfold select_screening. rewrite rows_finished, find_update_where_id.
  fold (select_screening (db (snd (marked i st))) i).
  rewrite select_marked. cbn. rewrite Z.eqb_refl. reflexivity.
Qed.

Lemma writes_finished :
  writes (finished w a i st)
  = (writes (snd (marked i st))
     ++ [Updated (screening_id (fst (marked i st)))
           (final_update w (prompt_of a))])%list.
Proof. rewrite finished_eq. cbn. rewrite writes_sent. reflexivity. Qed.

Lemma provider_calls_finished :
  provider_calls (finished w a i st)
  = match openai w with
    | Some _ => (provider_calls st ++ [prompt_of a])%list
    | None => provider_calls st
    end.
Proof.
  rewrite finished_eq. cbn. unfold sent, marked.
  destruct (openai w), (select_screening (db st) i); reflexivity.
Qed.

End Finished.

(** ** Status-only updates *)

Lemma update_status_where (k : Z) (s : AiStatus)
  (rows : list ScreeningResult) :
  update_where_id k (status_assignment s) rows = set_status_where k s rows.
Proof. reflexivity. Qed.

Lemma set_status_where_fresh (k : Z) (s : AiStatus)
  (rows : list ScreeningResult) :
  Forall (fun r => screening_id r < k) rows ->
  set_status_where k s rows = rows.
Proof.
  induction 1 as [|r rows Hr _ IH]; simpl; [reflexivity|].
  rewrite IH. replace (screening_id r =? k) with false; [reflexivity|].
  symmetry. apply Z.eqb_neq. lia.
Qed.

Lemma set_status_where_twice (k : Z) (s1 s2 : AiStatus)
  (rows : list ScreeningResult) :
  set_status_where k s2 (set_status_where k s1 rows)
  = set_status_where k s2 rows.
Proof.
  unfold set_status_where. rewrite map_map. apply map_ext. intro r.
  destruct (screening_id r =? k) eqn:E; cbn; rewrite E; reflexivity.
Qed.

Lemma set_status_where_app (k : Z) (s : AiStatus)
  (rows more : list ScreeningResult) :
  set_status_where k s (rows ++ more)
  = (set_status_where k s rows ++ set_status_where k s more)%list.
Proof. apply map_app. Qed.

Lemma rows_marked (i : Z) (st : State) :
  screeningResults (db (snd (marked i st)))
  = match select_screening (db st) i with
    | Some s0 =>
        set_status_where (screening_id s0) processing
          (screeningResults (db st))
    | None =>
        (screeningResults (db st)
         ++ [blank_row (screening_serial (db st)) i processing])%list
    end.
Proof.
  unfold marked. destruct (select_screening (db st) i); reflexivity.
Qed.

Lemma writes_marked (i : Z) (st : State) :
  writes (snd (marked i st))
  = match select_screening (db st) i with
    | Some s0 =>
        (writes st ++ [Updated (screening_id s0) (only_status processing)])%list
    | None =>
        (writes st
         ++ [Inserted (blank_row (screening_serial (db st)) i processing)])%list
    end.
Proof.
  unfold marked. destruct (select_screening (db st) i); reflexivity.
Qed.

Lemma body_throws_inv (w : World) (applicationId : Q) (i : Z) (st : State)
  (a : ApplicationWithContext) (e : Exn) :
  number_as_int4 applicationId = Some i ->
  join_application (db st) i = Some a ->
  fst (screening_body w applicationId st) = Throw e ->
  accepted_update w (prompt_of a) = inl e.
Proof.
  intros Hid Happ. rewrite (screening_body_eq w applicationId i Hid st a Happ).
  destruct (accepted_update w (prompt_of a)) as [e'|[[v u] asg]]; cbn.
  - intro H; inversion H; reflexivity.
  - discriminate.
Qed.

Lemma rows_of_marked (i : Z) (st : State) :
  rows_of (snd (marked i st)) i = Nat.max 1 (rows_of st i).
Proof.
  unfold rows_of. rewrite rows_marked. unfold select_screening.
  destruct (find (for_application i) (screeningResults (db st)))
    as [s0|] eqn:F.
  - rewrite <- update_status_where, filter_update_where_id.
    destruct (filter (for_application i) (screeningResults (db st)))
      as [|r l] eqn:E; [|reflexivity].
    apply find_some in F. destruct F as [Hin Hi].
    assert (In s0 (filter (for_application i) (screeningResults (db st))))
      by (apply filter_In; auto).
    rewrite E in H. contradiction.
  - rewrite filter_app, length_app, (find_none_count i _ F). cbn.
    unfold for_application. cbn. rewrite Z.eqb_refl. reflexivity.
Qed.

(** ** The row of a completed run *)

Lemma fst_marked (i : Z) (st : State) : fst (marked i st) = row_before st i.
Proof.
  unfold marked, row_before. destruct (select_screening (db st) i);
    reflexivity.
Qed.

Lemma applicationId_row_before (st : State) (i : Z) :
  applicationId (row_before st i) = i.
Proof.
  unfold row_before, select_screening.
  destruct (find _ _) as [s|] eqn:F; [|reflexivity].
  apply find_some in F. destruct F as [_ F]. apply Z.eqb_eq. exact F.
Qed.

Lemma apply_accepted (w : World) (prompt : string) (v : JValue)
  (u : ScreeningUpdate) (asg : Assignment) (r : ScreeningResult) :
  accepted_update w prompt = inr (v, u, asg) ->
  apply_assignment asg r = completed_row w v r.
Proof.
  intro A. apply accepted_update_inv in A. destruct A as (_ & U & B).
  apply success_update_fields in U.
  rewrite (bind_set_inv w u asg B r). subst u. reflexivity.
Qed.

Section Completed.

Variable w : World.
Variables (applicationId : Q) (i : Z).
Hypothesis Hid : number_as_int4 applicationId = Some i.
Variables (st : State) (a : ApplicationWithContext).
Hypothesis Happ : join_application (db st) i = Some a.

Lemma select_run :
  select_screening (db (snd (processApplicationAI w applicationId st))) i
  = Some match accepted_update w (prompt_of a) with
         | inr (v, _, _) => completed_row w v (row_before st i)
         | inl _ => with_status failed (row_before st i)
         end.
Proof.
  rewrite (run_existing w applicationId i Hid st a Happ). cbn [snd].
  rewrite select_finished, fst_marked. f_equal.
  unfold final_assignment.
  destruct (accepted_update w (prompt_of a)) as [e|[[v u] asg]] eqn:A.
  - reflexivity.
  - rewrite (apply_accepted w _ v u asg _ A). reflexivity.
Qed.

(** A run that ends in 'complete' went through the success write. *)
Lemma complete_inv (r' : ScreeningResult) :
  select_screening (db (snd (processApplicationAI w applicationId st))) i
  = Some r' ->
  aiStatus r' = complete ->
  exists v, evaluation w (prompt_of a) = inr v
            /\ r' = completed_row w v (row_before st i).
Proof.
  rewrite select_run. intros H Hc. inversion H as [Hr]. clear H.
  destruct (accepted_update w (prompt_of a)) as [e|[[v u] asg]] eqn:A.
  - subst r'. discriminate.
  - exists v. apply accepted_update_inv in A. destruct A as (E & _).
    auto.
Qed.

Lemma mock_accepted :
  openai w = None ->
  exists u asg,
    accepted_update w (prompt_of a) = inr (mock_response, u, asg).
Proof.
  intro Hnone. unfold accepted_update, evaluation. rewrite Hnone.
  eexists. eexists. reflexivity.
Qed.

Lemma mock_run :
  openai w = None ->
  select_screening (db (snd (processApplicationAI w applicationId st))) i
  = Some (mock_row (screening_id (row_before st i)) i)
  /\ provider_calls (snd (processApplicationAI w applicationId st))
     = provider_calls st.
Proof.
  intro Hnone. split.
  - rewrite select_run.
    destruct (mock_accepted Hnone) as (u & asg & A). rewrite A.
    unfold completed_row, mock_row.
    rewrite applicationId_row_before. reflexivity.
  - rewrite (run_existing w applicationId i Hid st a Happ). cbn [snd].
    rewrite provider_calls_finished, Hnone. reflexivity.
Qed.

End Completed.

Lemma bound_cell_ok (w : World) (field : option JValue) (old : option Z) :
  score_ok old ->
  (forall c z, field = Some c -> int4_param w c = inr (Some z) ->
               0 <= z <= 100) ->
  score_ok (bound_cell w field old).
Proof.
  intros Hold H. unfold bound_cell, bound.
  destruct field as [c|]; [|exact Hold].
  destruct (int4_param w c) as [e|[z|]] eqn:E; cbn; eauto.
Qed.

Lemma completed_row_ok (w : World) (v : JValue) (r : ScreeningResult) :
  response_scores_ok w v -> scores_ok r -> scores_ok (completed_row w v r).
Proof.
  intros Hv (R & S & F). unfold scores_ok, completed_row; cbn.
  repeat split; apply bound_cell_ok; trivial; intros c z Hc Hz;
    refine (Hv _ c z _ Hc Hz); cbn; auto.
Qed.

Lemma mock_scores_ok (w : World) :
  openai w = None ->
  forall (a : ApplicationWithContext) (v : JValue),
    evaluation w (prompt_of a) = inr v -> response_scores_ok w v.
Proof.
  intros Hnone a v. unfold evaluation. rewrite Hnone.
  intro H; inversion H; subst v. intros k c z Hk Hc Hz.
  cbn in Hk. destruct Hk as [<-|[<-|[<-|[]]]];
    cbn in Hc; inversion Hc; subst c; cbn in Hz; inversion Hz; lia.
Qed.

Lemma update_where_id_ok (k : Z) (asg : Assignment)
  (rows : list ScreeningResult) :
  (forall r, scores_ok r -> scores_ok (apply_assignment asg r)) ->
  Forall scores_ok rows -> Forall scores_ok (update_where_id k asg rows).
Proof.
  intros Hasg Hrows. unfold update_where_id. apply Forall_map.
  eapply Forall_impl; [|exact Hrows].
  intros r Hr. destruct (screening_id r =? k); auto.
Qed.

(** ** Further facts on runs *)

Lemma getApplication_found (applicationId : Q) (st st0 : State)
  (a : ApplicationWithContext) :
  getApplication applicationId st = (Ok (Some a), st0) ->
  exists i, number_as_int4 applicationId = Some i
            /\ join_application (db st) i = Some a.
Proof.
  unfold getApplication, bind, the_int4.
  destruct (number_as_int4 applicationId) as [i|]; [|discriminate].
  unfold ret. intro H. inversion H. exists i. auto.
Qed.

(** The [id] sequence stays ahead of the rows. *)
Lemma serial_fresh_run (w : World) (applicationId : Q) (st : State) :
  serial_fresh (db st) ->
  serial_fresh (db (snd (processApplicationAI w applicationId st))).
Proof.
  intro Hf.
  destruct (number_as_int4 applicationId) as [i|] eqn:Hid.
  2:{ rewrite (run_bad_id w applicationId st Hid). exact Hf. }
  destruct (join_application (db st) i) as [a|] eqn:Happ.
  2:{ rewrite (run_not_found w applicationId i st Hid Happ). exact Hf. }
  rewrite (run_existing w applicationId i Hid st a Happ). cbn [snd].
  unfold serial_fresh. rewrite rows_finished, finished_eq.
  cbn [db write_update with_screening screening_serial screeningResults].
  rewrite db_sent. unfold update_where_id. apply Forall_map.
  rewrite rows_marked. unfold marked.
  destruct (select_screening (db st) i) as [s0|]; cbn.
  - unfold set_status_where. apply Forall_map.
    eapply Forall_impl; [|exact Hf]. intros r Hr.
    destruct (screening_id r =? screening_id s0); cbn;
      destruct (screening_id r =? screening_id s0); cbn; exact Hr.
  - apply Forall_app. split.
    + eapply Forall_impl; [|exact Hf]. intros r Hr. cbn in Hr.
      destruct (screening_id r =? screening_serial (db st)); cbn; lia.
    + constructor; [|constructor]. cbn. rewrite Z.eqb_refl. cbn. lia.
Qed.

(** Runs one after the other on the same application never leave it with
    more rows than the first run did. *)
Lemma retrigger_keeps_one_row (w1 w2 : World) (applicationId : Q) (i : Z)
  (st : State) :
  number_as_int4 applicationId = Some i ->
  let st1 := snd (processApplicationAI w1 applicationId st) in
  let st2 := snd (processApplicationAI w2 applicationId st1) in
  rows_of st2 i = rows_of st1 i.
Proof.
  intros Hid st1 st2. subst st2.
  destruct (join_application (db st1) i) as [a1|] eqn:Happ1.
  2:{ rewrite (run_not_found w2 applicationId i st1 Hid Happ1). reflexivity. }
  rewrite (run_existing w2 applicationId i Hid st1 a1 Happ1). cbn [snd].
  unfold rows_of at 1. rewrite rows_finished, filter_update_where_id.
  fold (rows_of (snd (marked i st1)) i). rewrite rows_of_marked.
  subst st1.
  destruct (join_application (db st) i) as [a|] eqn:Happ.
  - rewrite (run_existing w1 applicationId i Hid st a Happ). cbn [snd].
    unfold rows_of. rewrite rows_finished, filter_update_where_id.
    fold (rows_of (snd (marked i st)) i). rewrite rows_of_marked.
    destruct (rows_of st i); reflexivity.
  - rewrite (run_not_found w1 applicationId i st Hid Happ) in Happ1.
    cbn [snd] in Happ1. congruence.
Qed.

(** The pipeline never reads [job_seeker_profiles]: two databases that
    differ in that table only end with the same [screening_results]. *)
Lemma run_ignores_profiles (w : World) (applicationId : Q) (d : Db)
  (profiles : list JobSeekerProfile) (calls : list string)
  (log : list Write) :
  screeningResults
    (db (snd (processApplicationAI w applicationId
                (mkState (with_profiles d profiles) calls log))))
  = screeningResults
      (db (snd (processApplicationAI w applicationId (mkState d calls log)))).
Proof.
  destruct (number_as_int4 applicationId) as [i|] eqn:Hid.
  2:{ rewrite !(run_bad_id w applicationId _ Hid). reflexivity. }
  destruct (join_application d i) as [a|] eqn:Happ.
  - rewrite (run_existing w applicationId i Hid
               (mkState (with_profiles d profiles) calls log) a Happ).
    rewrite (run_existing w applicationId i Hid (mkState d calls log) a Happ).
    cbn [snd]. rewrite !rows_finished, !rows_marked, !fst_marked.
    reflexivity.
  - rewrite (run_not_found w applicationId i
               (mkState (with_profiles d profiles) calls log) Hid Happ).
    rewrite (run_not_found w applicationId i (mkState d calls log) Hid Happ).
    reflexivity.
Qed.

(** A run keeps the scores in 0..100 when the response's scores are. *)
Lemma run_preserves_scores (w : World) (applicationId : Q) (st : State) :
  Forall scores_ok (screeningResults (db st)) ->
  (forall a v, evaluation w (prompt_of a) = inr v ->
               response_scores_ok w v) ->
  Forall scores_ok
    (screeningResults (db (snd (processApplicationAI w applicationId st)))).
Proof.
  intros Hrows Hev.
  destruct (number_as_int4 applicationId) as [i|] eqn:Hid.
  2:{ rewrite (run_bad_id w applicationId st Hid). exact Hrows. }
  destruct (join_application (db st) i) as [a|] eqn:Happ.
  2:{ rewrite (run_not_found w applicationId i st Hid Happ). exact Hrows. }
  rewrite (run_existing w applicationId i Hid st a Happ). cbn [snd].
  rewrite rows_finished. apply update_where_id_ok.
  - intros r Hr. unfold final_assignment.
    destruct (accepted_update w (prompt_of a)) as [e|[[v u] asg]] eqn:A.
    + exact Hr.
    + rewrite (apply_accepted w _ v u asg r A).
      apply completed_row_ok; [|exact Hr].
      apply accepted_update_inv in A. destruct A as (E & _).
      exact (Hev a v E).
  - rewrite rows_marked. destruct (select_screening (db st) i) as [s0|].
    + rewrite <- update_status_where. apply update_where_id_ok; auto.
    + apply Forall_app. split; [exact Hrows|].
      constructor; [|constructor]. repeat split.
Qed.

(** Scores stay in 0..100 along any sequence of runs without a provider. *)
Lemma scores_ok_after_runs (w : World) (ids : list Q) (st : State) :
  openai w = None ->
  Forall scores_ok (screeningResults (db st)) ->
  Forall scores_ok
    (screeningResults (db (settle (map (processApplicationAI w) ids) st))).
Proof.
  intros Hnone. revert st.
  induction ids as [|q ids IH]; intros st Hok; cbn; [exact Hok|].
  apply IH. apply run_preserves_scores; [exact Hok|].
  apply mock_scores_ok, Hnone.
Qed.

(** ** Worked runs *)

Example run_scenarioA_without_provider :
  processApplicationAI no_provider (inject_Z 1) (fresh scenarioA)
  = (Ok tt,
     mkState (with_screening scenarioA [mock_row 1 1] 2) []
       [ Inserted (blank_row 1 1 processing);
         Updated 1 (mkUpdate (Some (jint 85)) (Some (jint 80))
                      (Some (jint 82))
                      (prop mock_response "reasons")
                      (prop mock_response "summary")
                      (prop mock_response "questions")
                      (Some complete)) ]).
Proof. reflexivity. Qed.

Example run_fractional_identifier :
  processApplicationAI no_provider (1 # 2) (fresh scenarioA)
  = (Throw DbError, fresh scenarioA).
Proof. reflexivity. Qed.

Example run_unparseable_reply :
  select_screening
    (db (snd (processApplicationAI
                (mkWorld (Some (fun _ => Message (Some "Sorry, no.")))
                   (fun _ => None) (fun _ => None))
                (inject_Z 1) (fresh scenarioA)))) 1
  = Some (blank_row 1 1 failed).
Proof. reflexivity. Qed.

Example run_null_reply :
  select_screening
    (db (snd (processApplicationAI (provider_saying "null" JNull)
                (inject_Z 1) (fresh scenarioA)))) 1
  = Some (blank_row 1 1 failed).
Proof. reflexivity. Qed.

Example run_fractional_score :
  select_screening
    (db (snd (processApplicationAI
                (provider_saying "fractional"
                   (JObj [ ("rulesScore", jint 70);
                           ("finalScore", JNum (171 # 2)) ]))
                (inject_Z 1) screenedA))) 1
  = Some (with_status failed (mock_row 1 1)).
Proof. reflexivity. Qed.

Example run_nul_in_summary :
  select_screening
    (db (snd (processApplicationAI
                (provider_saying "nul"
                   (JObj [ ("finalScore", jint 90);
                           ("summary", JStr (String zero "x")) ]))
                (inject_Z 1) screenedA))) 1
  = Some (with_status failed (mock_row 1 1)).
Proof. reflexivity. Qed.

Example retry_after_failure :
  let failed_once :=
    snd (processApplicationAI provider_down (inject_Z 1) screenedA) in
  select_screening (db failed_once) 1 = Some (with_status failed (mock_row 1 1))
  /\ snd (processApplicationAI no_provider (inject_Z 1) failed_once)
     = mkState (with_screening scenarioA [mock_row 1 1] 2)
         [ prompt_of ctxA ]
         (writes failed_once
          ++ [ Updated 1 (only_status processing);
               Updated 1 (final_update no_provider (prompt_of ctxA)) ]).
Proof. split; reflexivity. Qed.

(** ** A run followed await by await *)

Lemma alone_settled (n : nat) (w : World) (applicationId : Q)
  (r : Result unit) (st : State) :
  alone n w applicationId (Settled r) st = (Settled r, st).
Proof. induction n as [|n IH]; [reflexivity | exact IH]. Qed.

(** The catch block, followed alone. *)
Lemma alone_caught (n : nat) (w : World) (applicationId : Q) (e : Exn)
  (st : State) :
  alone (S (S n)) w applicationId Caught st
  = (Settled (fst (on_failure w applicationId e st)),
     snd (on_failure w applicationId e st)).
Proof.
  unfold on_failure, bind. cbn [alone step].
  destruct (getScreeningResult applicationId st) as [[[s|]|x] st1];
    cbn [leave].
  - cbn [step].
    destruct (updateScreeningResult w (screening_id s) (only_status failed)
                st1) as [[r|x] st2]; cbn [leave fst snd ret];
      apply alone_settled.
  - apply alone_settled.
  - apply alone_settled.
Qed.

(** The rest of the try block after the first write, followed alone. *)
Lemma alone_waiting (w : World) (applicationId : Q)
  (a : ApplicationWithContext) (screening : ScreeningResult) (st : State) :
  let rest :=
    try_catch
      (aiResponse <- evaluate w (prompt_of a) ;;
       updates <- lift (success_update aiResponse) ;;
       updateScreeningResult w (screening_id screening) updates ;;
       ret tt)
      (on_failure w applicationId) in
  alone 4 w applicationId (Waiting a screening) st
  = (Settled (fst (rest st)), snd (rest st)).
Proof.
  cbv zeta. unfold try_catch, bind.
  change (alone 4 w applicationId (Waiting a screening) st)
    with (let (p', st') := step w applicationId (Waiting a screening) st in
          alone 3 w applicationId p' st').
  cbn [step]. unfold bind.
  destruct (evaluate w (prompt_of a) st) as [[v|e] st1]; cbn [enter];
    [|apply (alone_caught 1)].
  destruct (lift (success_update v) st1) as [[u|e] st2]; cbn [enter];
    [|apply (alone_caught 1)].
  change (alone 3 w applicationId (Answered screening u) st2)
    with (let (p', st') := step w applicationId (Answered screening u) st2 in
          alone 2 w applicationId p' st').
  cbn [step].
  destruct (updateScreeningResult w (screening_id screening) u st2)
    as [[r|e] st3]; cbn [enter];
    [apply alone_settled | apply (alone_caught 0)].
Qed.

(** A run followed alone, step by step, is [processApplicationAI]: seven
    steps take it from its start to its end, with the same result and
    the same state. *)
Lemma alone_is_run (w : World) (applicationId : Q) (st : State) :
  alone 7 w applicationId Started st
  = (Settled (fst (processApplicationAI w applicationId st)),
     snd (processApplicationAI w applicationId st)).
Proof.
  unfold processApplicationAI, try_catch, screening_body, mark_processing.
  unfold bind.
  change (alone 7 w applicationId Started st)
    with (let (p', st') := step w applicationId Started st in
          alone 6 w applicationId p' st').
  cbn [step].
  destruct (getApplication applicationId st) as [[[a|]|e] st1]; cbn [enter];
    [ | apply alone_settled | apply (alone_caught 4) ].
  change (alone 6 w applicationId (Found a) st1)
    with (let (p', st') := step w applicationId (Found a) st1 in
          alone 5 w applicationId p' st').
  cbn [step].
  destruct (getScreeningResult applicationId st1) as [[found|e] st2];
    cbn [enter]; [|apply (alone_caught 3)].
  change (alone 5 w applicationId (Looked a found) st2)
    with (let (p', st') := step w applicationId (Looked a found) st2 in
          alone 4 w applicationId p' st').
  pose proof (alone_waiting w applicationId a) as Rest.
  cbv zeta in Rest. unfold try_catch, bind in Rest.
  destruct found as [screening|]; cbn [step].
  - destruct (updateScreeningResult w (screening_id screening)
                (only_status processing) st2) as [[r|e] st3]; cbn [enter];
      [cbn [ret]; apply Rest | apply (alone_caught 2)].
  - destruct (createScreeningResult _ st2) as [[screening|e] st3];
      cbn [enter]; [apply Rest | apply (alone_caught 2)].
Qed.

(** * The claims *)

(** ** C1: the persisted finalScore *)

(** C1 as stated fails.  A provider answers rulesScore 0, semanticScore 0,
    finalScore 50: the run completes and persists 50, where the weighted
    sum of the two component scores is 0. *)
Lemma C1_counterexample :
  let row := mkScreeningResult 1 1 (Some 0) (Some 0) (Some 50) None None None
               complete in
  select_screening
    (db (snd (processApplicationAI (provider_scoring 0 0 50) (inject_Z 1)
                (fresh scenarioA)))) 1
  = Some row
  /\ rulesScore row = Some 0
  /\ semanticScore row = Some 0
  /\ SpecWords.finalScore 0 0 = 0
  /\ finalScore row <> Some (SpecWords.finalScore 0 0).
Proof. repeat split; (reflexivity || discriminate). Qed.

(** C1 (amended). The pipeline has no aggregation step.  The finalScore of
    a completed run is the finalScore field of the response the evaluation
    step returned, as the integer column takes it, and the cell is left as
    it was when the response has no such field.  Without a provider it is
    82, which is round(0.4 x 85 + 0.6 x 80) for the mock rulesScore and
    semanticScore.  (For an application with at most one ScreeningResult
    row, the row that is read back being the row the run wrote.) *)
Theorem C1_finalScore_is_response_field (w : World) (applicationId : Q)
  (i : Z) (st : State) (a : ApplicationWithContext) (r' : ScreeningResult) :
  number_as_int4 applicationId = Some i ->
  join_application (db st) i = Some a ->
  (rows_of st i <= 1)%nat ->
  select_screening (db (snd (processApplicationAI w applicationId st))) i
  = Some r' ->
  aiStatus r' = complete ->
  (exists v,
     evaluation w (prompt_of a) = inr v
     /\ finalScore r'
        = bound_cell w (prop v "finalScore") (finalScore (row_before st i)))
  /\ (openai w = None ->
      finalScore r' = Some (SpecWords.finalScore 85 80)).
Proof.
  intros Hid Happ _ Hsel Hc. split.
  - destruct (complete_inv w applicationId i Hid st a Happ r' Hsel Hc)
      as (v & E & Hr).
    exists v. split; [exact E|]. subst r'. reflexivity.
  - intro Hnone.
    destruct (mock_run w applicationId i Hid st a Happ Hnone) as [S _].
    rewrite S in Hsel. inversion Hsel. reflexivity.
Qed.

Lemma C1_witness :
  (exists v,
     evaluation (provider_scoring 0 0 50) (prompt_of ctxA) = inr v
     /\ Some 50
        = bound_cell (provider_scoring 0 0 50) (prop v "finalScore")
            (finalScore (row_before (fresh scenarioA) 1)))
  /\ (openai (provider_scoring 0 0 50) = None ->
      Some 50 = Some (SpecWords.finalScore 85 80)).
Proof.
  apply (C1_finalScore_is_response_field (provider_scoring 0 0 50)
           (inject_Z 1) 1 (fresh scenarioA) ctxA
           (mkScreeningResult 1 1 (Some 0) (Some 0) (Some 50) None None None
              complete)); first [reflexivity | (vm_compute; lia)].
Defined.

(** ** C2: the persisted rulesScore *)

(** C2 as stated fails.  Scenario A, screened without a provider: the row
    holds the mock scores 85, 80 and 82, where the specification's rules
    give 100 and, with a semantic score of 80, 88. *)
Lemma C2_counterexample :
  jobSeekerProfiles scenarioA
  = [ mkJobSeekerProfile 7 (Some ["React"; "Node.js"; "TypeScript"])
        (Some 6) None ]
  /\ map requiredSkills (jobs scenarioA) = [ Some ["React"; "Node.js"] ]
  /\ map minYears (jobs scenarioA) = [ Some 5 ]
  /\ SpecWords.rulesScore ["React"; "Node.js"; "TypeScript"]
       ["React"; "Node.js"] 6 5 = 100
  /\ SpecWords.finalScore 100 80 = 88
  /\ select_screening
       (db (snd (processApplicationAI no_provider (inject_Z 1)
                   (fresh scenarioA)))) 1
     = Some (mock_row 1 1)
  /\ rulesScore (mock_row 1 1) = Some 85
  /\ rulesScore (mock_row 1 1) <> Some 100
  /\ finalScore (mock_row 1 1) = Some 82
  /\ finalScore (mock_row 1 1) <> Some 88.
Proof. repeat split; (reflexivity || discriminate). Qed.

(** C2 (amended). The pipeline has no rules scorer.  The rulesScore of a
    completed run is the rulesScore field of the response the evaluation
    step returned, as the integer column takes it, and the cell is left as
    it was when the response has no such field.  Without a provider the
    response is the fixed mock object, so every completed run persists
    rulesScore 85, semanticScore 80 and finalScore 82, whatever the skills
    and years of the candidate and of the job.  (For an application with
    at most one ScreeningResult row, the row that is read back being the
    row the run wrote.) *)
Theorem C2_rulesScore_is_response_field (w : World) (applicationId : Q)
  (i : Z) (st : State) (a : ApplicationWithContext) (r' : ScreeningResult) :
  number_as_int4 applicationId = Some i ->
  join_application (db st) i = Some a ->
  (rows_of st i <= 1)%nat ->
  select_screening (db (snd (processApplicationAI w applicationId st))) i
  = Some r' ->
  aiStatus r' = complete ->
  (exists v,
     evaluation w (prompt_of a) = inr v
     /\ rulesScore r'
        = bound_cell w (prop v "rulesScore") (rulesScore (row_before st i)))
  /\ (openai w = None ->
      rulesScore r' = Some 85 /\ semanticScore r' = Some 80
      /\ finalScore r' = Some 82).
Proof.
  intros Hid Happ _ Hsel Hc. split.
  - destruct (complete_inv w applicationId i Hid st a Happ r' Hsel Hc)
      as (v & E & Hr).
    exists v. split; [exact E|]. subst r'. reflexivity.
  - intro Hnone.
    destruct (mock_run w applicationId i Hid st a Happ Hnone) as [S _].
    rewrite S in Hsel. inversion Hsel. repeat split; reflexivity.
Qed.

Lemma C2_witness :
  (exists v,
     evaluation no_provider (prompt_of ctxA) = inr v
     /\ rulesScore (mock_row 1 1)
        = bound_cell no_provider (prop v "rulesScore")
            (rulesScore (row_before (fresh scenarioA) 1)))
  /\ (openai no_provider = None ->
      rulesScore (mock_row 1 1) = Some 85
      /\ semanticScore (mock_row 1 1) = Some 80
      /\ finalScore (mock_row 1 1) = Some 82).
Proof.
  apply (C2_rulesScore_is_response_field no_provider (inject_Z 1) 1
           (fresh scenarioA) ctxA (mock_row 1 1));
    first [reflexivity | (vm_compute; lia)].
Defined.

(** ** C3: a run ends in a terminal status *)

(** C3 as stated fails.  Application 1 exists and has no ScreeningResult.
    Two runs are started for it and take turns at their awaits, with a
    provider that is down.  Both look for a row before either inserts
    one, so each inserts its own; both read the application's row in
    their catch blocks before either updates it, so both set row 1 to
    'failed'.  Both runs have settled, and row 2 is left in
    'processing'. *)
Lemma C3_counterexample :
  let o := interleaved provider_down (inject_Z 1) (inject_Z 1)
             [ First; Second; First; Second; First; Second;
               First; Second; First; Second; First; Second ]
             (fresh scenarioA) in
  join_application scenarioA 1 = Some ctxA
  /\ first_run o = Settled (Ok tt)
  /\ second_run o = Settled (Ok tt)
  /\ rows_of (shared o) 1 = 2%nat
  /\ In (blank_row 2 1 processing) (screeningResults (db (shared o))).
Proof.
  vm_compute. repeat split; auto.
Qed.

(** C3 (amended). For an application that exists when the run starts and
    has at most one ScreeningResult row, a run that no other run for the
    application overlaps returns normally, and the application's
    ScreeningResult then has aiStatus 'complete' or 'failed'. *)
Theorem C3_run_settles_terminal (w : World) (applicationId : Q) (i : Z)
  (st : State) (a : ApplicationWithContext) :
  number_as_int4 applicationId = Some i ->
  join_application (db st) i = Some a ->
  (rows_of st i <= 1)%nat ->
  fst (processApplicationAI w applicationId st) = Ok tt
  /\ (persisted_status (snd (processApplicationAI w applicationId st)) i
        = Some complete
      \/ persisted_status (snd (processApplicationAI w applicationId st)) i
        = Some failed).
Proof.
  intros Hid Happ _. rewrite (run_existing w applicationId i Hid st a Happ).
  split; [reflexivity|]. cbn [snd].
  unfold persisted_status. rewrite select_finished. cbn.
  rewrite final_status.
  destruct (accepted_update w (prompt_of a)); [right | left]; reflexivity.
Qed.

Lemma C3_witness :
  fst (processApplicationAI provider_down (inject_Z 1) (fresh scenarioA))
  = Ok tt
  /\ (persisted_status
        (snd (processApplicationAI provider_down (inject_Z 1)
                (fresh scenarioA))) 1 = Some complete
      \/ persisted_status
           (snd (processApplicationAI provider_down (inject_Z 1)
                   (fresh scenarioA))) 1 = Some failed).
Proof.
  apply (C3_run_settles_terminal provider_down (inject_Z 1) 1
           (fresh scenarioA) ctxA); first [reflexivity | (vm_compute; lia)].
Defined.

(** ** C4: create or fetch *)

(** C4 as stated fails.  On a fresh application the first write is a
    single INSERT of a row whose aiStatus is 'processing': no row is
    written in 'pending'. *)
Lemma C4_counterexample :
  let row := blank_row 1 1 processing in
  mark_processing no_provider (inject_Z 1) (fresh scenarioA)
  = (Ok row, mkState (with_screening scenarioA [row] 2) [] [Inserted row])
  /\ aiStatus row <> pending.
Proof. split; [reflexivity | discriminate]. Qed.

(** C4 (amended). Triggering screening for an existing application that
    has at most one ScreeningResult row first makes sure the application
    has a row in 'processing', with one write.
    If a row exists, whatever its aiStatus, that write is an update of this
    row which sets aiStatus to 'processing' and nothing else.  If none
    exists, that write is an insert of one row, directly in 'processing',
    its other fields NULL.  Either way the number of rows of the
    application, after this step and after the whole run, is the number
    before, or one if there was none. *)
Theorem C4_create_or_fetch (w : World) (applicationId : Q) (i : Z)
  (st : State) (a : ApplicationWithContext) :
  number_as_int4 applicationId = Some i ->
  join_application (db st) i = Some a ->
  (rows_of st i <= 1)%nat ->
  exists (screening : ScreeningResult) (st1 : State),
    mark_processing w applicationId st = (Ok screening, st1)
    /\ select_screening (db st1) i = Some (with_status processing screening)
    /\ match select_screening (db st) i with
       | Some s0 =>
           screening = s0
           /\ screeningResults (db st1)
              = set_status_where (screening_id s0) processing
                  (screeningResults (db st))
           /\ writes st1
              = (writes st
                 ++ [Updated (screening_id s0) (only_status processing)])%list
       | None =>
           screening = blank_row (screening_serial (db st)) i processing
           /\ screeningResults (db st1)
              = (screeningResults (db st) ++ [screening])%list
           /\ writes st1 = (writes st ++ [Inserted screening])%list
       end
    /\ rows_of st1 i = Nat.max 1 (rows_of st i)
    /\ rows_of (snd (processApplicationAI w applicationId st)) i
       = Nat.max 1 (rows_of st i).
Proof.
  intros Hid Happ _.
  exists (fst (marked i st)), (snd (marked i st)).
  split; [apply (mark_processing_eq w applicationId i Hid st a Happ)|].
  split; [apply select_marked|].
  split.
  - rewrite rows_marked, writes_marked. unfold marked.
    destruct (select_screening (db st) i); cbn [fst]; auto.
  - split; [apply rows_of_marked|].
    rewrite (run_existing w applicationId i Hid st a Happ). cbn [snd].
    unfold rows_of at 1. rewrite rows_finished, filter_update_where_id.
    apply rows_of_marked.
Qed.

Lemma C4_witness :
  exists (screening : ScreeningResult) (st1 : State),
    mark_processing provider_down (inject_Z 1) screenedA = (Ok screening, st1)
    /\ select_screening (db st1) 1 = Some (with_status processing screening)
    /\ (screening = mock_row 1 1
        /\ screeningResults (db st1)
           = set_status_where 1 processing (screeningResults (db screenedA))
        /\ writes st1
           = (writes screenedA ++ [Updated 1 (only_status processing)])%list)
    /\ rows_of st1 1 = 1%nat
    /\ rows_of (snd (processApplicationAI provider_down (inject_Z 1)
                       screenedA)) 1 = 1%nat.
Proof.
  apply (C4_create_or_fetch provider_down (inject_Z 1) 1 screenedA ctxA);
    first [reflexivity | (vm_compute; lia)].
Defined.

(** ** C5: a failed run changes the status only *)

(** C5. When the try block of a run on an existing application that has
    at most one ScreeningResult row throws, whatever the exception, the
    run ends with one more write, an update that sets only aiStatus, to
    'failed'.  If the application had a row
    before the run, the table afterwards is the table before the run with
    the aiStatus of that row set to 'failed': rulesScore, semanticScore,
    finalScore, reasons, aiSummary and aiQuestions are as they were.  If
    it had none, the table has gained one row whose six fields are NULL
    and whose aiStatus is 'failed'. *)
Theorem C5_failure_sets_only_status (w : World) (applicationId : Q) (i : Z)
  (st : State) (a : ApplicationWithContext) (e : Exn) :
  number_as_int4 applicationId = Some i ->
  join_application (db st) i = Some a ->
  (rows_of st i <= 1)%nat ->
  fst (screening_body w applicationId st) = Throw e ->
  let st' := snd (processApplicationAI w applicationId st) in
  fst (processApplicationAI w applicationId st) = Ok tt
  /\ (exists earlier k,
        writes st' = (earlier ++ [Updated k (only_status failed)])%list)
  /\ match select_screening (db st) i with
     | Some s0 =>
         screeningResults (db st')
         = set_status_where (screening_id s0) failed (screeningResults (db st))
     | None =>
         serial_fresh (db st) ->
         screeningResults (db st')
         = (screeningResults (db st)
            ++ [blank_row (screening_serial (db st)) i failed])%list
     end.
Proof.
  intros Hid Happ _ Hthrow st'. subst st'.
  pose proof (body_throws_inv w applicationId i st a e Hid Happ Hthrow) as Hacc.
  rewrite (run_existing w applicationId i Hid st a Happ). cbn [fst snd].
  split; [reflexivity|]. split.
  - rewrite writes_finished. unfold final_update. rewrite Hacc.
    eexists. eexists. reflexivity.
  - rewrite rows_finished, rows_marked.
    unfold final_assignment. rewrite Hacc. rewrite update_status_where.
    unfold marked.
    destruct (select_screening (db st) i) as [s0|]; cbn [fst].
    + apply set_status_where_twice.
    + intro Hfresh. rewrite set_status_where_app.
      rewrite (set_status_where_fresh _ _ _ Hfresh).
      cbn. rewrite Z.eqb_refl. reflexivity.
Qed.

Lemma C5_witness :
  let st' := snd (processApplicationAI provider_down (inject_Z 1) screenedA) in
  fst (processApplicationAI provider_down (inject_Z 1) screenedA) = Ok tt
  /\ (exists earlier k,
        writes st' = (earlier ++ [Updated k (only_status failed)])%list)
  /\ screeningResults (db st')
     = set_status_where 1 failed (screeningResults (db screenedA)).
Proof.
  apply (C5_failure_sets_only_status provider_down (inject_Z 1) 1 screenedA
           ctxA TransportError); first [reflexivity | (vm_compute; lia)].
Defined.

(** ** C6: unknown application *)

(** C6 as stated fails.  The manual trigger route takes every number as
    an applicationId, and one half is a number.  It resolves to no
    application: the database refuses the lookup, whose parameter is
    bound to an integer column.  The run goes to its catch block, whose
    own lookup is refused in the same way, and so the run throws to its
    caller.  Nothing is written. *)
Lemma C6_counterexample :
  ai_process_input_parse (JObj [ ("applicationId", JNum (1 # 2)) ])
  = inr (1 # 2)
  /\ (forall a,
        fst (getApplication (1 # 2) (fresh scenarioA)) <> Ok (Some a))
  /\ processApplicationAI provider_down (1 # 2) (fresh scenarioA)
     = (Throw DbError, fresh scenarioA)
  /\ fst (processApplicationAI provider_down (1 # 2) (fresh scenarioA))
     <> Ok tt.
Proof. repeat split; (reflexivity || discriminate). Qed.

(** C6 (amended). If the application identifier does not resolve to an
    application with its job and seeker, the run leaves the state as it
    was: no row of [screening_results] is created or changed and no write
    is executed.  When the identifier is an int4 the run returns
    normally; when it is not, a fraction or a number out of range, the
    run throws the database's error to its caller. *)
Theorem C6_not_found_no_writes (w : World) (applicationId : Q)
  (st : State) :
  (forall a, fst (getApplication applicationId st) <> Ok (Some a)) ->
  snd (processApplicationAI w applicationId st) = st
  /\ fst (processApplicationAI w applicationId st)
     = match number_as_int4 applicationId with
       | Some _ => Ok tt
       | None => Throw DbError
       end.
Proof.
  intro H.
  destruct (number_as_int4 applicationId) as [i|] eqn:Hid.
  - assert (Hnone : join_application (db st) i = None).
    { destruct (join_application (db st) i) as [a|] eqn:J; [|reflexivity].
      exfalso. apply (H a). unfold getApplication, bind, the_int4.
      rewrite Hid. cbn. rewrite J. reflexivity. }
    rewrite (run_not_found w applicationId i st Hid Hnone).
    split; reflexivity.
  - rewrite (run_bad_id w applicationId st Hid). split; reflexivity.
Qed.

Lemma C6_witness :
  snd (processApplicationAI provider_down (inject_Z 5) (fresh dangling))
  = fresh dangling
  /\ fst (processApplicationAI provider_down (inject_Z 5) (fresh dangling))
     = Ok tt.
Proof.
  apply (C6_not_found_no_writes provider_down (inject_Z 5) (fresh dangling)).
  intro a. vm_compute. discriminate.
Defined.

(** ** C7: fields missing from the response *)




(** ** C8: range of the persisted scores *)

(** C8 as stated fails.  A provider answers finalScore 150: the run
    completes and 150 is what the row holds. *)
Lemma C8_counterexample :
  let row := mkScreeningResult 1 1 (Some 0) (Some 0) (Some 150) None None None
               complete in
  select_screening
    (db (snd (processApplicationAI (provider_scoring 0 0 150) (inject_Z 1)
                (fresh scenarioA)))) 1
  = Some row
  /\ finalScore row = Some 150
  /\ ~ score_ok (finalScore row).
Proof. repeat split; cbn; lia. Qed.

(** C8 (amended). The pipeline neither clamps nor validates scores: it
    persists what the response carries.  If every row's scores are in
    0..100 or NULL before a run, and every score of the response that an
    integer column takes is in 0..100, then every row's scores are in
    0..100 or NULL after the run; without a provider the second condition
    always holds. *)
Theorem C8_scores_in_range_preserved (w : World) (applicationId : Q)
  (st : State) :
  Forall scores_ok (screeningResults (db st)) ->
  (openai w = None
   \/ forall a v, evaluation w (prompt_of a) = inr v ->
                  response_scores_ok w v) ->
  Forall scores_ok
    (screeningResults (db (snd (processApplicationAI w applicationId st)))).
Proof.
  intros Hrows Hresp. apply run_preserves_scores; [exact Hrows|].
  destruct Hresp as [Hnone|H]; [apply mock_scores_ok, Hnone | exact H].
Qed.

Lemma C8_witness :
  Forall scores_ok
    (screeningResults
       (db (snd (processApplicationAI no_provider (inject_Z 2)
                   screenedA_two)))).
Proof.
  apply (C8_scores_in_range_preserved no_provider (inject_Z 2) screenedA_two).
  - repeat constructor; cbn; lia.
  - left. reflexivity.
Defined.

(** ** C9: no provider configured *)

(** C9. With no client configured the evaluation step returns the fixed
    mock object for every prompt and sends nothing.  Any two runs on
    existing applications, each with at most one ScreeningResult row, in
    any states and for any facts, therefore end with rows that carry the
    same semanticScore (80), aiSummary and aiQuestions, and neither run
    adds a provider call. *)
Theorem C9_mock_mode_constant (w1 w2 : World) (id1 id2 : Q) (i1 i2 : Z)
  (st1 st2 : State) (a1 a2 : ApplicationWithContext) :
  openai w1 = None -> openai w2 = None ->
  number_as_int4 id1 = Some i1 -> number_as_int4 id2 = Some i2 ->
  join_application (db st1) i1 = Some a1 ->
  join_application (db st2) i2 = Some a2 ->
  (rows_of st1 i1 <= 1)%nat -> (rows_of st2 i2 <= 1)%nat ->
  (forall prompt st, evaluate w1 prompt st = (Ok mock_response, st))
  /\ exists r1 r2,
       select_screening (db (snd (processApplicationAI w1 id1 st1))) i1
       = Some r1
       /\ select_screening (db (snd (processApplicationAI w2 id2 st2))) i2
          = Some r2
       /\ semanticScore r1 = Some 80
       /\ semanticScore r1 = semanticScore r2
       /\ aiSummary r1 = aiSummary r2
       /\ aiQuestions r1 = aiQuestions r2
       /\ provider_calls (snd (processApplicationAI w1 id1 st1))
          = provider_calls st1
       /\ provider_calls (snd (processApplicationAI w2 id2 st2))
          = provider_calls st2.
Proof.
  intros N1 N2 Hid1 Hid2 Happ1 Happ2 _ _. split.
  - intros prompt st. unfold evaluate. rewrite N1. reflexivity.
  - destruct (mock_run w1 id1 i1 Hid1 st1 a1 Happ1 N1) as [S1 C1].
    destruct (mock_run w2 id2 i2 Hid2 st2 a2 Happ2 N2) as [S2 C2].
    eexists. eexists.
    split; [exact S1|]. split; [exact S2|].
    repeat split; assumption || reflexivity.
Qed.

Lemma C9_witness :
  (forall prompt st, evaluate no_provider prompt st = (Ok mock_response, st))
  /\ exists r1 r2,
       select_screening
         (db (snd (processApplicationAI no_provider (inject_Z 1)
                     (fresh two_applications)))) 1 = Some r1
       /\ select_screening
            (db (snd (processApplicationAI no_provider (inject_Z 2)
                        screenedA_two))) 2 = Some r2
       /\ semanticScore r1 = Some 80
       /\ semanticScore r1 = semanticScore r2
       /\ aiSummary r1 = aiSummary r2
       /\ aiQuestions r1 = aiQuestions r2
       /\ provider_calls (snd (processApplicationAI no_provider (inject_Z 1)
                                 (fresh two_applications))) = []
       /\ provider_calls (snd (processApplicationAI no_provider (inject_Z 2)
                                 screenedA_two)) = [].
Proof.
  apply (C9_mock_mode_constant no_provider no_provider (inject_Z 1)
           (inject_Z 2) 1 2 (fresh two_applications) screenedA_two ctxA ctxB);
    first [reflexivity | (vm_compute; lia)].
Defined.

(** ** C10: the manual trigger route *)

(** C10. For every request body whose applicationId is a number, the
    route answers 200 with the body
    [{message: "Processing started", status: "pending"}], whatever the
    number and whatever the database holds; the answer is the same for an
    identifier that matches an application and for one that matches
    none. *)
Theorem C10_fixed_response (w : World) (members : list (string * JValue))
  (q : Q) (st : State) :
  last_member "applicationId" members = Some (JNum q) ->
  fst (serve w (JObj members) st)
  = Some (mkResponse 200 (JObj [ ("message", JStr "Processing started");
                                 ("status", JStr "pending") ]))
  /\ snd (serve w (JObj members) st)
     = snd (processApplicationAI w q st).
Proof.
  intro H. unfold serve, ai_process_route, ai_process_input_parse.
  rewrite H. split; reflexivity.
Qed.

Lemma C10_witness :
  fst (serve no_provider (JObj [ ("applicationId", jint 999) ])
         (fresh scenarioA))
  = Some (mkResponse 200 (JObj [ ("message", JStr "Processing started");
                                 ("status", JStr "pending") ]))
  /\ snd (serve no_provider (JObj [ ("applicationId", jint 999) ])
            (fresh scenarioA))
     = snd (processApplicationAI no_provider (inject_Z 999) (fresh scenarioA)).
Proof.
  apply (C10_fixed_response no_provider [ ("applicationId", jint 999) ]
           (inject_Z 999) (fresh scenarioA)).
  reflexivity.
Defined.

(** * Further lemmas *)

Lemma with_screening_tables (d : Db) (rows : list ScreeningResult)
  (serial : Z) :
  users (with_screening d rows serial) = users d
  /\ jobSeekerProfiles (with_screening d rows serial) = jobSeekerProfiles d
  /\ jobs (with_screening d rows serial) = jobs d
  /\ applications (with_screening d rows serial) = applications d.
Proof. repeat split. Qed.

Lemma NoDup_map_eq {A B} (f : A -> B) (l : list A) (x y : A) :
  NoDup (map f l) -> In x l -> In y l -> f x = f y -> x = y.
Proof.
  induction l as [|a l IH]; cbn; [contradiction|].
  intros Hnd Hx Hy Hf. inversion Hnd as [|? ? Hnotin Hnd']; subst.
  destruct Hx as [<-|Hx], Hy as [<-|Hy]; auto.
  - exfalso. apply Hnotin. rewrite Hf. apply in_map. exact Hy.
  - exfalso. apply Hnotin. rewrite <- Hf. apply in_map. exact Hx.
Qed.

Lemma map_id_update_where_id (k : Z) (asg : Assignment)
  (rows : list ScreeningResult) :
  map screening_id (update_where_id k asg rows) = map screening_id rows.
Proof.
  unfold update_where_id. rewrite map_map. apply map_ext. intro r.
  destruct (screening_id r =? k); reflexivity.
Qed.

Lemma update_where_id_fresh (k : Z) (asg : Assignment)
  (rows : list ScreeningResult) :
  Forall (fun r => screening_id r < k) rows ->
  update_where_id k asg rows = rows.
Proof.
  unfold update_where_id.
  induction 1 as [|r rows Hr _ IH]; cbn; [reflexivity|].
  rewrite IH. replace (screening_id r =? k) with false; [reflexivity|].
  symmetry. apply Z.eqb_neq. lia.
Qed.

(** Updating by id leaves the rows of other applications alone when the
    id belongs to a row of application [i] and ids differ. *)
Lemma others_update_where_id (i k : Z) (asg : Assignment)
  (rows : list ScreeningResult) (s : ScreeningResult) :
  NoDup (map screening_id rows) ->
  In s rows -> screening_id s = k -> applicationId s = i ->
  filter (fun r => negb (for_application i r)) (update_where_id k asg rows)
  = filter (fun r => negb (for_application i r)) rows.
Proof.
  intros Hnd Hs Hk Hi.
  assert (H : forall r, In r rows -> for_application i r = false ->
                        (screening_id r =? k) = false).
  { intros r Hr Hother. apply Z.eqb_neq. intro E.
    assert (r = s) by (apply (NoDup_map_eq screening_id rows); congruence).
    subst r. unfold for_application in Hother. rewrite Hi, Z.eqb_refl in Hother.
    discriminate. }
  clear Hnd Hs. induction rows as [|r rows IH]; cbn; [reflexivity|].
  assert (E : for_application i
                (if screening_id r =? k then apply_assignment asg r else r)
              = for_application i r)
    by (destruct (screening_id r =? k); reflexivity).
  rewrite E. destruct (for_application i r) eqn:F; cbn.
  - apply IH. intros r' Hr'. apply H. right. exact Hr'.
  - rewrite (H r (or_introl eq_refl) F). f_equal.
    apply IH. intros r' Hr'. apply H. right. exact Hr'.
Qed.

Lemma update_where_id_absent (id : Z) (asg : Assignment)
  (rows : list ScreeningResult) :
  Forall (fun r => screening_id r <> id) rows ->
  update_where_id id asg rows = rows.
Proof.
  unfold update_where_id.
  induction 1 as [|r rows Hr _ IH]; cbn; [reflexivity|].
  rewrite IH. apply Z.eqb_neq in Hr. rewrite Hr. reflexivity.
Qed.

Lemma find_id_absent (id : Z) (rows : list ScreeningResult) :
  Forall (fun r => screening_id r <> id) rows ->
  find (fun r => screening_id r =? id) rows = None.
Proof.
  induction 1 as [|r rows Hr _ IH]; cbn; [reflexivity|].
  apply Z.eqb_neq in Hr. rewrite Hr. exact IH.
Qed.

Lemma select_in (d : Db) (i : Z) (s : ScreeningResult) :
  select_screening d i = Some s ->
  In s (screeningResults d) /\ applicationId s = i.
Proof.
  unfold select_screening. intro F. apply find_some in F.
  destruct F as [Hin Hi]. split; [exact Hin|]. apply Z.eqb_eq. exact Hi.
Qed.

Lemma run_other_tables (w : World) (applicationId : Q) (st : State) :
  let d' := db (snd (processApplicationAI w applicationId st)) in
  users d' = users (db st)
  /\ jobSeekerProfiles d' = jobSeekerProfiles (db st)
  /\ jobs d' = jobs (db st)
  /\ applications d' = applications (db st).
Proof.
  cbv zeta.
  destruct (number_as_int4 applicationId) as [i|] eqn:Hid.
  2:{ rewrite (run_bad_id w applicationId st Hid). repeat split. }
  destruct (join_application (db st) i) as [a|] eqn:Happ.
  2:{ rewrite (run_not_found w applicationId i st Hid Happ). repeat split. }
  rewrite (run_existing w applicationId i Hid st a Happ). cbn [snd].
  rewrite finished_eq. cbn [db write_update]. rewrite db_sent.
  unfold marked. destruct (select_screening (db st) i); repeat split.
Qed.

(** * Further properties *)

(** ** The pipeline ([processApplicationAI]) *)

(** X1. A run, whatever its outcome, leaves the tables users,
    job_seeker_profiles, jobs and applications exactly as they were: the
    pipeline writes [screening_results] only. *)
Theorem X1_run_writes_screening_only (w : World) (applicationId : Q)
  (st : State) :
  let d' := db (snd (processApplicationAI w applicationId st)) in
  users d' = users (db st)
  /\ jobSeekerProfiles d' = jobSeekerProfiles (db st)
  /\ jobs d' = jobs (db st)
  /\ applications d' = applications (db st).
Proof. apply run_other_tables. Qed.

(** X2. When the ids of [screening_results] differ and the sequence is
    ahead of them, a run for one application leaves every row of every
    other application as it was. *)
Theorem X2_run_keeps_other_applications (w : World) (applicationId : Q)
  (i : Z) (st : State) :
  number_as_int4 applicationId = Some i ->
  ids_well_formed (db st) ->
  rows_of_others (db (snd (processApplicationAI w applicationId st))) i
  = rows_of_others (db st) i.
Proof.
  intros Hid [Hnd Hfresh].
  destruct (join_application (db st) i) as [a|] eqn:Happ.
  2:{ rewrite (run_not_found w applicationId i st Hid Happ). reflexivity. }
  rewrite (run_existing w applicationId i Hid st a Happ). cbn [snd].
  unfold rows_of_others. rewrite rows_finished, rows_marked, fst_marked.
  unfold row_before.
  destruct (select_screening (db st) i) as [s0|] eqn:S.
  - destruct (select_in _ _ _ S) as [Hin Hi].
    rewrite <- update_status_where.
    rewrite (others_update_where_id i (screening_id s0) _ _
               (apply_assignment (status_assignment processing) s0)).
    + apply (others_update_where_id i (screening_id s0) _ _ s0); auto.
    + rewrite map_id_update_where_id. exact Hnd.
    + unfold update_where_id. apply in_map_iff. exists s0.
      rewrite Z.eqb_refl. auto.
    + reflexivity.
    + exact Hi.
  - cbn [screening_id blank_row]. unfold update_where_id.
    rewrite map_app, filter_app.
    fold (update_where_id (screening_serial (db st))
            (final_assignment w (prompt_of a)) (screeningResults (db st))).
    rewrite (update_where_id_fresh _ _ _ Hfresh). cbn.
    rewrite Z.eqb_refl. cbn. unfold for_application at 2. cbn.
    rewrite Z.eqb_refl. cbn. apply app_nil_r.
Qed.

Lemma X2_witness :
  rows_of_others
    (db (snd (processApplicationAI provider_down (inject_Z 2) screenedA_two)))
    2
  = rows_of_others (db screenedA_two) 2.
Proof.
  apply (X2_run_keeps_other_applications provider_down (inject_Z 2) 2
           screenedA_two); [reflexivity|].
  split; [repeat constructor; cbn; intuition discriminate
         | repeat constructor; cbn; lia].
Defined.

(** X3. A run keeps the primary key of [screening_results]: if the ids
    differ and the sequence is ahead of them before the run, they do
    after it. *)
Theorem X3_run_keeps_ids_well_formed (w : World) (applicationId : Q)
  (st : State) :
  ids_well_formed (db st) ->
  ids_well_formed (db (snd (processApplicationAI w applicationId st))).
Proof.
  intros [Hnd Hfresh]. split; [|apply serial_fresh_run; exact Hfresh].
  destruct (number_as_int4 applicationId) as [i|] eqn:Hid.
  2:{ rewrite (run_bad_id w applicationId st Hid). exact Hnd. }
  destruct (join_application (db st) i) as [a|] eqn:Happ.
  2:{ rewrite (run_not_found w applicationId i st Hid Happ). exact Hnd. }
  rewrite (run_existing w applicationId i Hid st a Happ). cbn [snd].
  rewrite rows_finished, map_id_update_where_id, rows_marked.
  destruct (select_screening (db st) i) as [s0|].
  - rewrite <- update_status_where, map_id_update_where_id. exact Hnd.
  - rewrite map_app. cbn.
    apply NoDup_app.
    + exact Hnd.
    + constructor; [intros []|constructor].
    + intros x Hx [<-|[]]. apply in_map_iff in Hx.
      destruct Hx as (r & Hr & Hin).
      unfold serial_fresh in Hfresh. rewrite Forall_forall in Hfresh.
      specialize (Hfresh r Hin). lia.
Qed.

Lemma X3_witness :
  ids_well_formed
    (db (snd (processApplicationAI no_provider (inject_Z 1)
                (fresh scenarioA)))).
Proof.
  apply (X3_run_keeps_ids_well_formed no_provider (inject_Z 1)
           (fresh scenarioA)).
  split; constructor.
Defined.

(** X4. A run calls [openai.chat.completions.create] at most once:
    exactly once, with the prompt built from the application's job and
    seeker, when a client is configured and the application is found,
    and not at all otherwise.  (How many requests the client sends for
    that one call is the client's matter.) *)
Theorem X4_run_calls_create_once (w : World) (applicationId : Q)
  (st : State) :
  provider_calls (snd (processApplicationAI w applicationId st))
  = (provider_calls st ++ prompts_of_run w applicationId st)%list
  /\ (List.length (prompts_of_run w applicationId st) <= 1)%nat.
Proof.
  unfold prompts_of_run.
  destruct (number_as_int4 applicationId) as [i|] eqn:Hid.
  2:{ rewrite (run_bad_id w applicationId st Hid). cbn.
      rewrite app_nil_r. auto. }
  destruct (join_application (db st) i) as [a|] eqn:Happ.
  2:{ rewrite (run_not_found w applicationId i st Hid Happ). cbn.
      rewrite app_nil_r. auto. }
  rewrite (run_existing w applicationId i Hid st a Happ). cbn [snd].
  rewrite provider_calls_finished.
  destruct (openai w); cbn; [auto | rewrite app_nil_r; auto].
Qed.



(** X6. The outcome of a run does not depend on [job_seeker_profiles]:
    replacing that table by any other leaves the rows a run persists, the
    prompt it sends and the writes it executes the same.  The candidate's
    skills, years and resume text do not reach the provider. *)
Theorem X6_run_ignores_seeker_profiles (w : World) (applicationId : Q)
  (d : Db) (profiles : list JobSeekerProfile) (calls : list string)
  (log : list Write) :
  let plain := snd (processApplicationAI w applicationId
                      (mkState d calls log)) in
  let other := snd (processApplicationAI w applicationId
                      (mkState (with_profiles d profiles) calls log)) in
  screeningResults (db other) = screeningResults (db plain)
  /\ provider_calls other = provider_calls plain
  /\ writes other = writes plain.
Proof.
  cbv zeta. split; [apply run_ignores_profiles|].
  destruct (number_as_int4 applicationId) as [i|] eqn:Hid.
  2:{ rewrite !(run_bad_id w applicationId _ Hid). auto. }
  destruct (join_application d i) as [a|] eqn:Happ.
  - rewrite (run_existing w applicationId i Hid
               (mkState (with_profiles d profiles) calls log) a Happ).
    rewrite (run_existing w applicationId i Hid (mkState d calls log) a Happ).
    cbn [snd]. rewrite !provider_calls_finished, !writes_finished,
      !writes_marked, !fst_marked. auto.
  - rewrite (run_not_found w applicationId i
               (mkState (with_profiles d profiles) calls log) Hid Happ).
    rewrite (run_not_found w applicationId i (mkState d calls log) Hid Happ).
    auto.
Qed.

(** X7. For an application with at most one ScreeningResult row: when
    the provider's text parses to JSON that is not an object, the run
    does not fail unless the value is [null]: for a boolean, a
    number, a string or an array the run ends in 'complete' and the six
    result fields keep the values they had; for [null] it ends in
    'failed'. *)
Theorem X7_non_object_response (w : World) (applicationId : Q) (i : Z)
  (st : State) (a : ApplicationWithContext) (v : JValue) :
  number_as_int4 applicationId = Some i ->
  join_application (db st) i = Some a ->
  (rows_of st i <= 1)%nat ->
  evaluation w (prompt_of a) = inr v ->
  (forall members, v <> JObj members) ->
  select_screening (db (snd (processApplicationAI w applicationId st))) i
  = Some (with_status (match v with JNull => failed | _ => complete end)
            (row_before st i)).
Proof.
  intros Hid Happ _ Hev Hnot.
  rewrite (select_run w applicationId i Hid st a Happ).
  unfold accepted_update. rewrite Hev.
  destruct v; try reflexivity.
  exfalso. exact (Hnot members eq_refl).
Qed.

Lemma X7_witness :
  select_screening
    (db (snd (processApplicationAI (provider_saying "[1]" (JArr [jint 1]))
                (inject_Z 1) screenedA))) 1
  = Some (with_status complete (row_before screenedA 1)).
Proof.
  apply (X7_non_object_response (provider_saying "[1]" (JArr [jint 1]))
           (inject_Z 1) 1 screenedA ctxA (JArr [jint 1]));
    [reflexivity | reflexivity | vm_compute; lia | reflexivity
    | discriminate].
Defined.

(** X8. For an application with at most one ScreeningResult row: a
    reply of the provider whose content is null or the empty string is
    read as the text of the empty object: when [JSON.parse]
    reads that text as the empty object, the run ends in 'complete' with
    the six result fields as they were, NULL on a new row. *)
Theorem X8_empty_content_completes (w : World)
  (client : string -> ProviderReply) (applicationId : Q) (i : Z)
  (st : State) (a : ApplicationWithContext) :
  number_as_int4 applicationId = Some i ->
  join_application (db st) i = Some a ->
  (rows_of st i <= 1)%nat ->
  openai w = Some client ->
  client (prompt_of a) = Message None
  \/ client (prompt_of a) = Message (Some EmptyString) ->
  JSON_parse w "{}" = Some (JObj []) ->
  select_screening (db (snd (processApplicationAI w applicationId st))) i
  = Some (with_status complete (row_before st i)).
Proof.
  intros Hid Happ _ Hc Hreply Hparse.
  rewrite (select_run w applicationId i Hid st a Happ).
  unfold accepted_update, evaluation. rewrite Hc.
  destruct Hreply as [-> | ->]; cbn [content_or_empty_object];
    unfold parse; rewrite Hparse; reflexivity.
Qed.

Lemma X8_witness :
  select_screening
    (db (snd (processApplicationAI provider_silent (inject_Z 1)
                (fresh scenarioA)))) 1
  = Some (with_status complete (row_before (fresh scenarioA) 1)).
Proof.
  apply (X8_empty_content_completes provider_silent
           (fun _ => Message None) (inject_Z 1) 1 (fresh scenarioA) ctxA);
    try reflexivity.
  - vm_compute. lia.
  - left. reflexivity.
Defined.

Lemma rows_of_marked_other (i j : Z) (st : State) :
  j <> i -> rows_of (snd (marked i st)) j = rows_of st j.
Proof.
  intro Hj. unfold rows_of. rewrite rows_marked.
  destruct (select_screening (db st) i) as [s0|].
  - rewrite <- update_status_where. apply filter_update_where_id.
  - rewrite filter_app, length_app. cbn. unfold for_application at 2. cbn.
    replace (i =? j) with false; [cbn; lia|].
    symmetry. apply Z.eqb_neq. congruence.
Qed.

(** X27. One row per application is kept by runs that do not overlap:
    if no application has more than one ScreeningResult row before a run,
    none has after it, whatever application the run is for and however
    it ends. *)
Theorem X27_run_keeps_one_row (w : World) (applicationId : Q) (st : State) :
  (forall j, (rows_of st j <= 1)%nat) ->
  forall j,
    (rows_of (snd (processApplicationAI w applicationId st)) j <= 1)%nat.
Proof.
  intros H j.
  destruct (number_as_int4 applicationId) as [i|] eqn:Hid.
  2:{ rewrite (run_bad_id w applicationId st Hid). apply H. }
  destruct (join_application (db st) i) as [a|] eqn:Happ.
  2:{ rewrite (run_not_found w applicationId i st Hid Happ). apply H. }
  rewrite (run_existing w applicationId i Hid st a Happ). cbn [snd].
  unfold rows_of at 1. rewrite rows_finished, filter_update_where_id.
  fold (rows_of (snd (marked i st)) j).
  destruct (Z.eq_dec j i) as [->|Hj].
  - rewrite rows_of_marked. specialize (H i). lia.
  - rewrite (rows_of_marked_other i j st Hj). apply H.
Qed.

Lemma X27_witness :
  (rows_of (snd (processApplicationAI provider_down (inject_Z 1)
                   (snd (processApplicationAI no_provider (inject_Z 1)
                           (fresh scenarioA))))) 1 <= 1)%nat.
Proof.
  apply (X27_run_keeps_one_row provider_down (inject_Z 1)
           (snd (processApplicationAI no_provider (inject_Z 1)
                   (fresh scenarioA)))).
  intro j. unfold rows_of.
  change (screeningResults
            (db (snd (processApplicationAI no_provider (inject_Z 1)
                        (fresh scenarioA)))))
    with [ mock_row 1 1 ].
  cbn [filter]. destruct (for_application j (mock_row 1 1)); cbn; lia.
Defined.

(** ** The screening operations of [DatabaseStorage] *)



(** X10. [updateScreeningResult] with an id, an int4, that no row has is
    accepted and changes no row: it returns [undefined] and the table is
    as before. *)
Theorem X10_update_unknown_id (w : World) (id : Z)
  (updates : ScreeningUpdate) (asg : Assignment) (st : State) :
  in_int4 id = true ->
  Forall (fun r => screening_id r <> id) (screeningResults (db st)) ->
  no_values updates = false ->
  bind_set w updates = inr asg ->
  exists st',
    updateScreeningResult w id updates st = (Ok None, st')
    /\ screeningResults (db st') = screeningResults (db st).
Proof.
  intros _ Hnone Hv Hb. eexists. split.
  - unfold updateScreeningResult, bind. rewrite Hv, Hb. cbn.
    rewrite (update_where_id_absent id asg _ Hnone).
    rewrite (find_id_absent id _ Hnone). reflexivity.
  - reflexivity.
Qed.

Lemma X10_witness :
  exists st',
    updateScreeningResult no_provider 9 (only_status failed) screenedA
    = (Ok None, st')
    /\ screeningResults (db st') = screeningResults (db screenedA).
Proof.
  apply (X10_update_unknown_id no_provider 9 (only_status failed)
           (status_assignment failed) screenedA).
  - reflexivity.
  - repeat constructor; cbn; discriminate.
  - reflexivity.
  - reflexivity.
Defined.

(** X11. For an application with at most one ScreeningResult row:
    updating the row that [getScreeningResult] returns, by its id, with
    result fields and a status whose [jsonb] values hold no object,
    changes that row as the SET clause says and keeps its id and its
    application: [getScreeningResult] afterwards returns the updated
    row. *)
Theorem X11_update_then_get (w : World) (appId : Q) (i : Z)
  (s : ScreeningResult) (updates : ScreeningUpdate) (asg : Assignment)
  (st : State) :
  number_as_int4 appId = Some i ->
  (rows_of st i <= 1)%nat ->
  getScreeningResult appId st = (Ok (Some s), st) ->
  no_values updates = false ->
  jsonb_as_sent updates = true ->
  bind_set w updates = inr asg ->
  exists returned st',
    updateScreeningResult w (screening_id s) updates st = (Ok returned, st')
    /\ getScreeningResult appId st'
       = (Ok (Some (apply_assignment asg s)), st')
    /\ screening_id (apply_assignment asg s) = screening_id s
    /\ applicationId (apply_assignment asg s) = i.
Proof.
  intros Hid _ Hget Hv _ Hb.
  rewrite (getScreeningResult_eq appId i Hid) in Hget.
  inversion Hget as [S].
  destruct (updateScreeningResult_eq w (screening_id s) updates asg st Hv Hb)
    as [returned Hu].
  exists returned. eexists. split; [exact Hu|].
  split; [|split; [reflexivity|]].
  - rewrite (getScreeningResult_eq appId i Hid). f_equal. f_equal.
    unfold select_screening, write_update. cbn.
    rewrite find_update_where_id. fold (select_screening (db st) i).
    rewrite S. cbn. rewrite Z.eqb_refl. reflexivity.
  - cbn. apply (select_in (db st) i s S).
Qed.

Lemma X11_witness :
  exists returned st',
    updateScreeningResult no_provider 1 (only_status failed) screenedA
    = (Ok returned, st')
    /\ getScreeningResult (inject_Z 1) st'
       = (Ok (Some (apply_assignment (status_assignment failed)
                      (mock_row 1 1))), st')
    /\ screening_id (apply_assignment (status_assignment failed)
                       (mock_row 1 1)) = 1
    /\ applicationId (apply_assignment (status_assignment failed)
                        (mock_row 1 1)) = 1.
Proof.
  apply (X11_update_then_get no_provider (inject_Z 1) 1 (mock_row 1 1)
           (only_status failed) (status_assignment failed) screenedA);
    first [reflexivity | (vm_compute; lia)].
Defined.

(** ** The manual trigger route ([POST /api/ai/process]) *)

Lemma persisted_status_run (w : World) (applicationId : Q) (i : Z)
  (st : State) (a : ApplicationWithContext) :
  number_as_int4 applicationId = Some i ->
  join_application (db st) i = Some a ->
  persisted_status (snd (processApplicationAI w applicationId st)) i
  = Some (match accepted_update w (prompt_of a) with
          | inr _ => complete
          | inl _ => failed
          end).
Proof.
  intros Hid Happ. rewrite (run_existing w applicationId i Hid st a Happ).
  cbn [snd]. unfold persisted_status. rewrite select_finished. cbn.
  rewrite final_status. reflexivity.
Qed.

(** X12. The route answers with status "pending" for an existing
    application, yet once the run it started has settled, no other run
    for the application overlapping it, the row of an application with
    at most one ScreeningResult row is in 'complete' or 'failed': the answer never reports the outcome,
    and the row is never left in 'pending'. *)
Theorem X12_trigger_settles_terminal (w : World)
  (members : list (string * JValue)) (q : Q) (i : Z) (st : State)
  (a : ApplicationWithContext) :
  last_member "applicationId" members = Some (JNum q) ->
  number_as_int4 q = Some i ->
  join_application (db st) i = Some a ->
  (rows_of st i <= 1)%nat ->
  option_map (fun r => prop (body r) "status")
    (fst (serve w (JObj members) st))
  = Some (Some (JStr "pending"))
  /\ (persisted_status (snd (serve w (JObj members) st)) i = Some complete
      \/ persisted_status (snd (serve w (JObj members) st)) i = Some failed).
Proof.
  intros Hm Hid Happ _.
  unfold serve, ai_process_route, ai_process_input_parse. rewrite Hm.
  split; [reflexivity|]. cbn [snd background settle fold_left].
  rewrite (persisted_status_run w q i st a Hid Happ).
  destruct (accepted_update w (prompt_of a)); auto.
Qed.

Lemma X12_witness :
  option_map (fun r => prop (body r) "status")
    (fst (serve provider_down (JObj [ ("applicationId", jint 1) ])
            (fresh scenarioA)))
  = Some (Some (JStr "pending"))
  /\ (persisted_status
        (snd (serve provider_down (JObj [ ("applicationId", jint 1) ])
                (fresh scenarioA))) 1 = Some complete
      \/ persisted_status
           (snd (serve provider_down (JObj [ ("applicationId", jint 1) ])
                   (fresh scenarioA))) 1 = Some failed).
Proof.
  apply (X12_trigger_settles_terminal provider_down
           [ ("applicationId", jint 1) ] (inject_Z 1) 1 (fresh scenarioA)
           ctxA); first [reflexivity | (vm_compute; lia)].
Defined.

(** X13. A request body that is not an object with a numeric
    applicationId makes the input validation throw inside the handler,
    which has no try block: the handler sends no answer, starts no run and
    leaves the state as it was. *)
Theorem X13_trigger_rejects_malformed_body (w : World) (req_body : JValue)
  (st : State) :
  (forall members q,
     req_body = JObj members ->
     last_member "applicationId" members <> Some (JNum q)) ->
  ai_process_input_parse req_body = inl ZodError
  /\ serve w req_body st = (None, st).
Proof.
  intro H.
  assert (E : ai_process_input_parse req_body = inl ZodError).
  { unfold ai_process_input_parse. destruct req_body; try reflexivity.
    destruct (last_member "applicationId" members) as [[| |q| | |]|] eqn:L;
      try reflexivity.
    exfalso. exact (H members q eq_refl L). }
  split; [exact E|]. unfold serve, ai_process_route. rewrite E. reflexivity.
Qed.

Lemma X13_witness :
  ai_process_input_parse (JObj [ ("applicationId", JStr "1") ])
  = inl ZodError
  /\ serve no_provider (JObj [ ("applicationId", JStr "1") ])
       (fresh scenarioA)
     = (None, fresh scenarioA).
Proof.
  apply (X13_trigger_rejects_malformed_body no_provider
           (JObj [ ("applicationId", JStr "1") ]) (fresh scenarioA)).
  intros members q Hb. inversion Hb; subst members. cbn. discriminate.
Defined.

(** ** buildUrl *)

Example buildUrl_job :
  buildUrl "/api/jobs/:id" (Some [ ("id", PNum 5) ]) = "/api/jobs/5".
Proof. reflexivity. Qed.

Example buildUrl_longer_name :
  buildUrl "/x/:idx" (Some [ ("id", PNum 5) ]) = "/x/5x".
Proof. reflexivity. Qed.

Example buildUrl_first_only :
  buildUrl "/a/:id/b/:id" (Some [ ("id", PStr "7") ]) = "/a/7/b/:id".
Proof. reflexivity. Qed.

Example buildUrl_dollar :
  buildUrl "/a/:id" (Some [ ("id", PStr "$&-$$") ]) = "/a/:id-$".
Proof. reflexivity. Qed.

Example buildUrl_chained :
  buildUrl "/a/:x" (Some [ ("x", PStr ":y"); ("y", PStr "z") ]) = "/a/z".
Proof. reflexivity. Qed.

Lemma prefix_app (n a : string) : prefix n (n ++ a) = true.
Proof.
  induction n as [|c n IH]; cbn; [destruct a; reflexivity|].
  destruct (ascii_dec c c); [exact IH | congruence].
Qed.

Lemma drop_app (n a : string) : drop (String.length n) (n ++ a) = a.
Proof. induction n as [|c n IH]; cbn; auto. Qed.

Lemma prefix_drop (n h : string) :
  prefix n h = true -> h = (n ++ drop (String.length n) h)%string.
Proof.
  revert h. induction n as [|c n IH]; intros h; cbn;
    [intros _; reflexivity|].
  destruct h as [|c' h]; cbn; [discriminate|].
  destruct (ascii_dec c c') as [<-|]; [|discriminate].
  intro H. f_equal. apply IH. exact H.
Qed.

Lemma split_first_nil (n : string) :
  split_first n EmptyString
  = if prefix n EmptyString
    then Some (EmptyString, drop (String.length n) EmptyString) else None.
Proof. reflexivity. Qed.

Lemma split_first_cons (n : string) (c : ascii) (h : string) :
  split_first n (String c h)
  = if prefix n (String c h)
    then Some (EmptyString, drop (String.length n) (String c h))
    else match split_first n h with
         | Some (before, after) => Some (String c before, after)
         | None => None
         end.
Proof. reflexivity. Qed.

Lemma split_first_sound (n h before after : string) :
  split_first n h = Some (before, after) ->
  h = (before ++ n ++ after)%string.
Proof.
  revert before. induction h as [|c h IH]; intros before.
  - rewrite split_first_nil.
    destruct (prefix n EmptyString) eqn:P; [|discriminate].
    intro H; inversion H; subst. apply (prefix_drop n _ P).
  - rewrite split_first_cons.
    destruct (prefix n (String c h)) eqn:P.
    + intro H; inversion H; subst. apply (prefix_drop n _ P).
    + destruct (split_first n h) as [[b a]|]; [|discriminate].
      intro H; inversion H; subst. cbn [append]. f_equal. apply IH.
      reflexivity.
Qed.

Lemma split_first_first (n pre post : string) :
  first_at n pre post ->
  split_first n (pre ++ n ++ post) = Some (pre, post).
Proof.
  unfold first_at. induction pre as [|c pre IH]; intro H.
  - cbn [append]. destruct (n ++ post)%string eqn:E;
      [rewrite split_first_nil | rewrite split_first_cons];
      rewrite <- E, prefix_app, drop_app; reflexivity.
  - cbn [append]. rewrite split_first_cons.
    pose proof (H 0%nat ltac:(cbn; lia)) as H0. cbn [drop append] in H0.
    rewrite H0, IH; [reflexivity|].
    intros p Hp. apply (H (S p)). cbn. lia.
Qed.

Lemma split_first_none (n h : string) :
  split_first n h = None -> forall b a, h <> (b ++ n ++ a)%string.
Proof.
  induction h as [|c h IH]; intros H b a E.
  - rewrite split_first_nil in H.
    destruct (prefix n EmptyString) eqn:P; [discriminate|].
    destruct b; [|discriminate]. cbn [append] in E.
    rewrite E, prefix_app in P. discriminate.
  - rewrite split_first_cons in H.
    destruct (prefix n (String c h)) eqn:P; [discriminate|].
    destruct (split_first n h) as [[b' a']|] eqn:S; [discriminate|].
    destruct b as [|c' b]; cbn [append] in E.
    + rewrite E, prefix_app in P. discriminate.
    + inversion E; subst. apply (IH eq_refl b a). reflexivity.
Qed.

Lemma includes_spec (n h : string) :
  includes n h = true <-> exists b a, h = (b ++ n ++ a)%string.
Proof.
  unfold includes. split.
  - destruct (split_first n h) as [[b a]|] eqn:S; [|discriminate].
    intros _. exists b, a. apply split_first_sound. exact S.
  - intros (b & a & E).
    destruct (split_first n h) as [[b' a']|] eqn:S; [reflexivity|].
    exfalso. exact (split_first_none n h S b a E).
Qed.

Lemma substitute_dollar_free (m b a t : string) :
  dollar_free t = true -> substitute m b a t = t.
Proof.
  induction t as [|c t IH]; cbn; [reflexivity|].
  destruct (Ascii.eqb c "$"); cbn; [discriminate|].
  intro H. f_equal. apply IH. exact H.
Qed.

Lemma dollar_free_uint (d : Decimal.uint) :
  dollar_free (NilEmpty.string_of_uint d) = true.
Proof. induction d; cbn; auto. Qed.

Lemma dollar_free_show_int (z : Z) : dollar_free (show_int z) = true.
Proof.
  unfold show_int, NilZero.string_of_int, NilZero.string_of_uint.
  destruct (Z.to_int z) as [d|d]; cbn.
  - destruct d; try apply dollar_free_uint; reflexivity.
  - destruct d; try apply dollar_free_uint; reflexivity.
Qed.

Lemma fill_absent (url key : string) (value : ParamValue) :
  includes (":" ++ key) url = false -> fill url (key, value) = url.
Proof. unfold fill. intros ->. reflexivity. Qed.

(** X14. [buildUrl] returns the path unchanged when no parameter's
    placeholder, a colon followed by the key, occurs in it; in particular
    when [params] is omitted or empty. *)
Theorem X14_buildUrl_without_placeholder (path : string)
  (entries : list (string * ParamValue)) :
  (forall key value before after,
     In (key, value) entries ->
     path <> (before ++ (":" ++ key) ++ after)%string) ->
  buildUrl path (Some entries) = path /\ buildUrl path None = path.
Proof.
  intro H. split; [|reflexivity]. unfold buildUrl.
  induction entries as [|[key value] entries IH]; cbn [fold_left];
    [reflexivity|].
  rewrite fill_absent.
  - apply IH. intros k v b a Hin. apply (H k v). right. exact Hin.
  - destruct (includes (":" ++ key) path) eqn:I; [|reflexivity].
    apply includes_spec in I. destruct I as (b & a & E).
    exfalso. exact (H key value b a (or_introl eq_refl) E).
Qed.

Lemma X14_witness :
  buildUrl "/api/jobs" (Some [ ("id", PNum 5) ]) = "/api/jobs"
  /\ buildUrl "/api/jobs" None = "/api/jobs".
Proof.
  apply (X14_buildUrl_without_placeholder "/api/jobs" [ ("id", PNum 5) ]).
  intros key value before after [H|[]] E. inversion H; subst.
  assert (I : includes ":id" "/api/jobs" = true)
    by (apply includes_spec; exists before, after; exact E).
  discriminate I.
Defined.

(** X15. With one parameter, a string or an integer of magnitude up to
    2^53, whose placeholder occurs in the path, [buildUrl] rewrites the
    first occurrence only, and whatever follows
    it stays, be it the rest of a longer name.  The value is not always
    inserted as it is: it is the replacement template of
    [String.prototype.replace], in which a dollar sign followed by a
    dollar sign, an ampersand, a backquote or a quote is expanded. *)
Theorem X15_buildUrl_first_occurrence (key : string) (value : ParamValue)
  (pre post : string) :
  exact_number value = true ->
  first_at (":" ++ key) pre post ->
  buildUrl (pre ++ (":" ++ key) ++ post) (Some [ (key, value) ])
  = (pre ++ substitute (":" ++ key) pre post (js_String value) ++ post)%string.
Proof.
  intros _ H. cbn [buildUrl fold_left fill]. unfold includes, replace.
  rewrite (split_first_first _ pre post H). reflexivity.
Qed.

Lemma X15_witness :
  buildUrl ("/a/" ++ (":" ++ "id") ++ "/b/:id") (Some [ ("id", PStr "$&$$") ])
  = ("/a/" ++ substitute (":" ++ "id") "/a/" "/b/:id" "$&$$" ++ "/b/:id")%string.
Proof.
  apply (X15_buildUrl_first_occurrence "id" (PStr "$&$$") "/a/" "/b/:id");
    [reflexivity|].
  intros p Hp. cbn in Hp.
  destruct p as [|[|[|p]]]; [reflexivity | reflexivity | reflexivity | lia].
Defined.

(** X16. A string without a dollar sign, and every integer of magnitude
    up to 2^53, is inserted as it is: the first occurrence of the
    placeholder is replaced by the text of the value. *)
Theorem X16_buildUrl_plain_value (key : string) (value : ParamValue)
  (pre post : string) :
  exact_number value = true ->
  first_at (":" ++ key) pre post ->
  (forall s, value = PStr s -> dollar_free s = true) ->
  buildUrl (pre ++ (":" ++ key) ++ post) (Some [ (key, value) ])
  = (pre ++ js_String value ++ post)%string.
Proof.
  intros _ H Hv. cbn [buildUrl fold_left fill]. unfold includes, replace.
  rewrite (split_first_first _ pre post H).
  rewrite substitute_dollar_free; [reflexivity|].
  destruct value as [s|z]; cbn; [apply Hv; reflexivity|].
  apply dollar_free_show_int.
Qed.

Lemma X16_witness :
  buildUrl ("/api/applications/" ++ (":" ++ "id") ++ "/status")
    (Some [ ("id", PNum 42) ])
  = ("/api/applications/" ++ js_String (PNum 42) ++ "/status")%string.
Proof.
  apply (X16_buildUrl_plain_value "id" (PNum 42) "/api/applications/"
           "/status").
  - reflexivity.
  - intros p Hp. cbn in Hp. do 18 (destruct p as [|p]; [reflexivity|]). lia.
  - discriminate.
Defined.
(** ** Submitting an application ([POST /api/applications]) *)

Lemma Qred_inject (z : Z) : Qred (inject_Z z) = inject_Z z.
Proof.
  unfold Qred, inject_Z.
  generalize (Z.ggcd_gcd z 1) (Z.ggcd_correct_divisors z 1).
  destruct (Z.ggcd z 1) as (g, (aa, bb)). cbn.
  intros Hg [H1 H2]. rewrite Z.gcd_1_r in Hg. subst g.
  rewrite Z.mul_1_l in H1, H2. subst. reflexivity.
Qed.

Lemma number_as_int4_inject (z : Z) :
  in_int4 z = true -> number_as_int4 (inject_Z z) = Some z.
Proof.
  intro H. unfold number_as_int4. rewrite Qred_inject. cbn.
  rewrite H. reflexivity.
Qed.

Lemma number_as_int4_eq (q : Q) (j : Z) :
  number_as_int4 q = Some j -> Qeq_bool (inject_Z j) q = true.
Proof.
  unfold number_as_int4. intro H.
  destruct (Z.pos (Qden (Qred q)) =? 1) eqn:D; [|discriminate].
  destruct (in_int4 (Qnum (Qred q))); [|discriminate].
  cbn in H. inversion H; subst j. apply Qeq_bool_iff.
  rewrite <- (Qred_correct q) at 2.
  destruct (Qred q) as [n d]. cbn [Qnum Qden] in *. apply Z.eqb_eq in D.
  inversion D; subst. reflexivity.
Qed.

Lemma settle_one (task : M unit) (st : State) :
  settle [task] st = snd (task st).
Proof. reflexivity. Qed.

Lemma find_app_last (apps : list Application) (row : Application) :
  Forall (fun a => app_id a < app_id row) apps ->
  find (fun a => app_id a =? app_id row) (apps ++ [row]) = Some row.
Proof.
  induction 1 as [|a apps Ha _ IH]; cbn.
  - rewrite Z.eqb_refl. reflexivity.
  - replace (app_id a =? app_id row) with false; [exact IH|].
    symmetry. apply Z.eqb_neq. lia.
Qed.

Lemma existsb_find {A} (f : A -> bool) (l : list A) :
  existsb f l = true -> exists x, find f l = Some x /\ In x l /\ f x = true.
Proof.
  induction l as [|a l IH]; cbn; [discriminate|].
  destruct (f a) eqn:F.
  - intros _. exists a. auto.
  - cbn. intro H. destruct (IH H) as (x & Hx & Hin & Hf). exists x. auto.
Qed.

(** What [apply_route] does when every check passes. *)
Lemma apply_route_created (w : World) (u : SessionUser) (req_body : JValue)
  (site : Site) (q : Q) (note : option string) (j : Z) :
  session_role u = "seeker" ->
  apply_input_parse req_body = inr (q, note) ->
  existsb (same_job q) (listApplicationsForSeeker (session_id u) site)
  = false ->
  number_as_int4 q = Some j ->
  existsb (fun x => job_id x =? j) (jobs (db (inner site))) = true ->
  existsb (fun x => user_id x =? session_id u) (users (db (inner site)))
  = true ->
  match note with Some s => has_nul s | None => false end = false ->
  let row := mkApplication (applications_serial site) j (session_id u) in
  apply_route w (Some u) req_body site
  = mkApplied (Some (Created row))
      [ processApplicationAI w (inject_Z (applications_serial site)) ]
      (mkSite (mkState (with_applications (db (inner site))
                          (applications (db (inner site)) ++ [row]))
                 (provider_calls (inner site)) (writes (inner site)))
              (companies site) (applications_serial site + 1)).
Proof.
  intros Hrole Hparse Hnew Hq Hjob Huser Hnote row.
  unfold apply_route. rewrite Hrole, Hparse, Hnew. cbn [String.eqb negb].
  change (String.eqb "seeker" "seeker") with true. cbn [negb].
  unfold createApplication. rewrite Hq, Hnote, Hjob, Huser. reflexivity.
Qed.

Lemma apply_route_started (w : World) (user : option SessionUser)
  (req_body : JValue) (site : Site) :
  started (apply_route w user req_body site) = []
  \/ exists q,
       started (apply_route w user req_body site)
       = [ processApplicationAI w q ].
Proof.
  unfold apply_route.
  destruct user as [u|]; [|auto].
  destruct (negb _); [auto|].
  destruct (apply_input_parse req_body) as [e|[q note]]; [auto|].
  destruct (existsb (same_job q) _); [auto|].
  destruct (createApplication q (session_id u) note site) as [[row|e] site'];
    [|auto].
  right. eexists. reflexivity.
Qed.

(** X17. The route creates an application only for an authenticated
    seeker and only for that seeker: in every case it either leaves every
    table as it was and starts no run, or it appends exactly one row, whose
    seeker is the user of the session and whose id is the next of the
    sequence, answers 201 with that row and starts the screening of that
    row. *)
Theorem X17_apply_creates_for_session_seeker (w : World)
  (user : option SessionUser) (req_body : JValue) (site : Site) :
  let r := apply_route w user req_body site in
  (inner (site_after r) = inner site
   /\ companies (site_after r) = companies site
   /\ started r = []
   /\ forall row, answer r <> Some (Created row))
  \/ exists u j,
       user = Some u /\ session_role u = "seeker"
       /\ let row := mkApplication (applications_serial site) j
                       (session_id u) in
          answer r = Some (Created row)
          /\ applications (db (inner (site_after r)))
             = (applications (db (inner site)) ++ [row])%list
          /\ applications_serial (site_after r) = applications_serial site + 1
          /\ started r = [ processApplicationAI w (inject_Z (app_id row)) ].
Proof.
  cbv zeta. unfold apply_route.
  destruct user as [u|]; [|left; repeat split; discriminate].
  destruct (String.eqb (session_role u) "seeker") eqn:R; cbn [negb];
    [|left; repeat split; discriminate].
  apply String.eqb_eq in R.
  destruct (apply_input_parse req_body) as [e|[q note]];
    [left; repeat split; discriminate|].
  destruct (existsb (same_job q) _);
    [left; repeat split; discriminate|].
  unfold createApplication.
  destruct (number_as_int4 q) as [j|];
    [|left; repeat split; discriminate].
  destruct (match note with Some s => has_nul s | None => false end);
    [left; repeat split; discriminate|].
  destruct (_ && _); [|left; repeat split; discriminate].
  right. exists u, j. repeat split; auto.
Qed.

Lemma joins_after (site : Site) (apps : list Application) (st : State)
  (serial : Z) (a : Application) :
  jobs (db st) = jobs (db (inner site)) ->
  joins_job_and_company (mkSite st (companies site) serial) a
  = joins_job_and_company site a.
Proof. unfold joins_job_and_company. cbn. intros ->. reflexivity. Qed.

Lemma site_ok_same_tables (site : Site) (st : State) :
  jobs (db st) = jobs (db (inner site)) ->
  applications (db st) = applications (db (inner site)) ->
  site_ok site ->
  site_ok (mkSite st (companies site) (applications_serial site)).
Proof.
  intros Hj Ha [J S C O]. constructor; cbn; rewrite ?Ha, ?Hj; auto.
  eapply Forall_impl; [|exact J]. intros a H.
  rewrite (joins_after site [] st _ a Hj). exact H.
Qed.

Lemma site_ok_skip (site : Site) :
  site_ok site -> site_ok (skip_application_id site).
Proof.
  intros [J S C O]. constructor; cbn; auto.
  eapply Forall_impl; [|exact S]. cbn. intros a H. lia.
Qed.

(** X18. The route keeps a consistent site consistent, also once the
    screening it started has settled: every application still joins its
    job and the job's company, ids stay below the sequence, and no seeker
    has two applications for one job. *)
Theorem X18_apply_keeps_one_application_per_job (w : World)
  (user : option SessionUser) (req_body : JValue) (site : Site) :
  site_ok site ->
  site_ok (site_after (apply_route w user req_body site))
  /\ site_ok (settled (apply_route w user req_body site)).
Proof.
  intro Hok.
  assert (Hafter : site_ok (site_after (apply_route w user req_body site))).
  { unfold apply_route.
    destruct user as [u|]; [|exact Hok].
    destruct (negb _); [exact Hok|].
    destruct (apply_input_parse req_body) as [e|[q note]]; [exact Hok|].
    destruct (existsb (same_job q) _) eqn:Hnew; [exact Hok|].
    unfold createApplication.
    destruct (number_as_int4 q) as [j|] eqn:Hq; [|exact Hok].
    destruct (match note with Some s => has_nul s | None => false end);
      [exact Hok|].
    destruct (existsb (fun x => job_id x =? j) _) eqn:Hjob;
      cbn [andb]; [|exact (site_ok_skip site Hok)].
    destruct (existsb (fun x => user_id x =? session_id u) _);
      cbn [andb]; [|exact (site_ok_skip site Hok)]. cbn [site_after].
    destruct Hok as [J S C O].
    set (row := mkApplication (applications_serial site) j (session_id u)).
    assert (Hrow : joins_job_and_company site row = true).
    { unfold joins_job_and_company. cbn [jobId row].
      destruct (existsb_find _ _ Hjob) as (x & Hx & Hin & _).
      rewrite Hx. rewrite Forall_forall in C. apply C. exact Hin. }
    constructor; cbn.
    - apply Forall_app. split.
      + eapply Forall_impl; [|exact J]. intros a H. exact H.
      + constructor; [exact Hrow | constructor].
    - apply Forall_app. split.
      + eapply Forall_impl; [|exact S]. cbn. intros a H. lia.
      + constructor; [cbn; lia | constructor].
    - exact C.
    - rewrite map_app. cbn. apply NoDup_app; [exact O | | ].
      + constructor; [intros [] | constructor].
      + intros p Hp [<-|[]]. apply in_map_iff in Hp.
        destruct Hp as (a & Ha & Hin). inversion Ha as [[Hj Hs]].
        assert (L : In a (listApplicationsForSeeker (session_id u) site)).
        { unfold listApplicationsForSeeker. apply filter_In. split; [exact Hin|].
          rewrite Hs, Z.eqb_refl. cbn. rewrite Forall_forall in J.
          apply J. exact Hin. }
        assert (E : existsb (same_job q)
                      (listApplicationsForSeeker (session_id u) site) = true).
        { apply existsb_exists. exists a. split; [exact L|].
          unfold same_job. rewrite Hj. apply number_as_int4_eq. exact Hq. }
        congruence. }
  split; [exact Hafter|].
  unfold settled.
  set (r := apply_route w user req_body site) in *.
  assert (T : jobs (db (settle (started r) (inner (site_after r))))
              = jobs (db (inner (site_after r)))
              /\ applications (db (settle (started r) (inner (site_after r))))
                 = applications (db (inner (site_after r)))).
  { destruct (apply_route_started w user req_body site) as [E|[q E]];
      fold r in E; rewrite E; cbn [settle fold_left]; [auto|].
    destruct (run_other_tables w q (inner (site_after r)))
      as (_ & _ & Hj & Ha). auto. }
  destruct T as [Tj Ta].
  apply site_ok_same_tables; assumption.
Qed.

Lemma X18_witness :
  site_ok (site_after (apply_route no_provider (Some seeker7) (apply_body 3)
                         siteA))
  /\ site_ok (settled (apply_route no_provider (Some seeker7) (apply_body 3)
                         siteA)).
Proof.
  apply (X18_apply_keeps_one_application_per_job no_provider (Some seeker7)
           (apply_body 3) siteA).
  constructor; cbn; repeat constructor.
Defined.

Lemma same_job_inv (q : Q) (j : Z) (a : Application) :
  number_as_int4 q = Some j -> same_job q a = true -> jobId a = j.
Proof.
  intros Hq Hs. unfold same_job in Hs. apply Qeq_bool_iff in Hs.
  apply number_as_int4_eq, Qeq_bool_iff in Hq.
  apply inject_Z_injective. rewrite Hs, Hq. reflexivity.
Qed.

Lemma not_applied (site : Site) (u : SessionUser) (q : Q) (j : Z) :
  number_as_int4 q = Some j ->
  Forall (fun a => seekerId a = session_id u -> jobId a <> j)
    (applications (db (inner site))) ->
  existsb (same_job q) (listApplicationsForSeeker (session_id u) site)
  = false.
Proof.
  intros Hq Hnew.
  destruct (existsb _ _) eqn:E; [|reflexivity].
  apply existsb_exists in E. destruct E as (a & Hin & Hs).
  unfold listApplicationsForSeeker in Hin. apply filter_In in Hin.
  destruct Hin as [Hin Hf]. apply andb_prop in Hf. destruct Hf as [Hu _].
  apply Z.eqb_eq in Hu. rewrite Forall_forall in Hnew.
  exfalso. apply (Hnew a Hin Hu). exact (same_job_inv q j a Hq Hs).
Qed.

Lemma accepted_created (w : World) (site : Site) (u : SessionUser)
  (req_body : JValue) (j : Z) :
  accepted_submission site u req_body j ->
  let row := mkApplication (applications_serial site) j (session_id u) in
  apply_route w (Some u) req_body site
  = mkApplied (Some (Created row))
      [ processApplicationAI w (inject_Z (applications_serial site)) ]
      (mkSite (mkState (with_applications (db (inner site))
                          (applications (db (inner site)) ++ [row]))
                 (provider_calls (inner site)) (writes (inner site)))
              (companies site) (applications_serial site + 1)).
Proof.
  intros [Hrole (q & note & Hparse & Hq & Hnote) Hjob Huser Hnew].
  apply (apply_route_created w u req_body site q note j); auto.
  apply (not_applied site u q j Hq Hnew).
Qed.

(** X19. A submission that passes the checks is answered 201 with the new
    row, and once the screening it started has settled the new application
    has a screening row in 'complete' or 'failed'. *)
Theorem X19_apply_then_screened (w : World) (site : Site) (u : SessionUser)
  (req_body : JValue) (j : Z) :
  site_ok site ->
  in_int4 (applications_serial site) = true ->
  accepted_submission site u req_body j ->
  let r := apply_route w (Some u) req_body site in
  answer r
  = Some (Created (mkApplication (applications_serial site) j (session_id u)))
  /\ (persisted_status (inner (settled r)) (applications_serial site)
      = Some complete
      \/ persisted_status (inner (settled r)) (applications_serial site)
         = Some failed).
Proof.
  intros Hok Hser Hacc r. subst r.
  rewrite (accepted_created w site u req_body j Hacc).
  split; [reflexivity|].
  unfold settled. cbn [started site_after inner]. rewrite settle_one.
  destruct Hacc as [_ _ Hjob Huser _]. destruct Hok as [_ S _ _].
  destruct (existsb_find _ _ Hjob) as (jb & Fj & _ & _).
  destruct (existsb_find _ _ Huser) as (us & Fu & _ & _).
  set (row := mkApplication (applications_serial site) j (session_id u)).
  rewrite (persisted_status_run w (inject_Z (applications_serial site))
             (applications_serial site) _ (mkCtx row jb us)
             (number_as_int4_inject _ Hser)).
  - destruct (accepted_update w _); auto.
  - unfold join_application. cbn [db applications with_applications jobs
      users].
    change (applications_serial site) with (app_id row) at 1.
    rewrite (find_app_last _ row S). cbn [jobId seekerId row].
    rewrite Fj, Fu. reflexivity.
Qed.

Lemma X19_witness :
  let r := apply_route provider_down (Some seeker7) (apply_body 3) siteA in
  answer r = Some (Created (mkApplication 1 3 7))
  /\ (persisted_status (inner (settled r)) 1 = Some complete
      \/ persisted_status (inner (settled r)) 1 = Some failed).
Proof.
  apply (X19_apply_then_screened provider_down siteA seeker7 (apply_body 3) 3).
  - constructor; cbn; repeat constructor.
  - reflexivity.
  - constructor; cbn; try reflexivity.
    + exists (inject_Z 3), None. repeat split; reflexivity.
    + constructor.
Defined.

Lemma submitted_listed (w : World) (site : Site) (u : SessionUser)
  (req_body : JValue) (j : Z) :
  site_ok site ->
  accepted_submission site u req_body j ->
  In (mkApplication (applications_serial site) j (session_id u))
     (listApplicationsForSeeker (session_id u)
        (settled (apply_route w (Some u) req_body site))).
Proof.
  intros Hok Hacc.
  rewrite (accepted_created w site u req_body j Hacc).
  unfold settled. cbn [started site_after inner companies
    applications_serial]. rewrite settle_one.
  set (st0 := mkState _ _ _).
  destruct (run_other_tables w (inject_Z (applications_serial site)) st0)
    as (_ & _ & Tj & Ta).
  destruct Hacc as [_ _ Hjob _ _]. destruct Hok as [_ _ C _].
  unfold listApplicationsForSeeker. apply filter_In. cbn [inner].
  split.
  - rewrite Ta. subst st0. cbn. apply in_or_app. right. left. reflexivity.
  - cbn [seekerId]. rewrite Z.eqb_refl. cbn [andb].
    unfold joins_job_and_company. cbn [inner jobId companies].
    rewrite Tj. subst st0. cbn [db jobs with_applications].
    destruct (existsb_find _ _ Hjob) as (jb & Fj & Hin & _).
    rewrite Fj. rewrite Forall_forall in C. apply C. exact Hin.
Qed.

(** X20. After a submission has gone through, the same seeker submitting
    for the same job again is answered 400 "Already applied"; nothing is
    written and no screening is started. *)
Theorem X20_second_submission_refused (w w' : World) (site : Site)
  (u : SessionUser) (req_body : JValue) (j : Z) :
  site_ok site ->
  accepted_submission site u req_body j ->
  let site1 := settled (apply_route w (Some u) req_body site) in
  apply_route w' (Some u) req_body site1
  = mkApplied (Some (BadRequest AlreadyApplied)) [] site1.
Proof.
  intros Hok Hacc site1. subst site1.
  rewrite (accepted_created w site u req_body j Hacc).
  unfold settled. cbn [started site_after inner companies
    applications_serial]. rewrite settle_one.
  set (st0 := mkState _ _ _).
  destruct (run_other_tables w (inject_Z (applications_serial site)) st0)
    as (_ & _ & Tj & Ta).
  set (st1 := snd (processApplicationAI w
                     (inject_Z (applications_serial site)) st0)) in *.
  destruct Hacc as [Hrole (q & note & Hparse & Hq & Hnote) Hjob Huser Hnew].
  destruct Hok as [_ _ C _].
  unfold apply_route. rewrite Hrole. change (String.eqb "seeker" "seeker")
    with true. cbn [negb]. rewrite Hparse.
  replace (existsb (same_job q) _) with true; [reflexivity|].
  symmetry. apply existsb_exists.
  exists (mkApplication (applications_serial site) j (session_id u)).
  split.
  - unfold listApplicationsForSeeker. apply filter_In. cbn [inner].
    split.
    + rewrite Ta. subst st0. cbn. apply in_or_app. right. left. reflexivity.
    + cbn [seekerId]. rewrite Z.eqb_refl. cbn [andb].
      unfold joins_job_and_company. cbn [inner jobId companies].
      rewrite Tj. subst st0. cbn [db jobs with_applications].
      destruct (existsb_find _ _ Hjob) as (jb & Fj & Hin & _).
      rewrite Fj. rewrite Forall_forall in C. apply C. exact Hin.
  - unfold same_job. cbn [jobId]. apply number_as_int4_eq. exact Hq.
Qed.

Lemma X20_witness :
  let site1 :=
    settled (apply_route no_provider (Some seeker7) (apply_body 3) siteA) in
  apply_route provider_down (Some seeker7) (apply_body 3) site1
  = mkApplied (Some (BadRequest AlreadyApplied)) [] site1.
Proof.
  apply (X20_second_submission_refused no_provider provider_down siteA
           seeker7 (apply_body 3) 3).
  - constructor; cbn; repeat constructor.
  - constructor; cbn; try reflexivity.
    + exists (inject_Z 3), None. repeat split; reflexivity.
    + constructor.
Defined.

(** ** Accounts ([signup], the verify function of the local strategy) *)

Lemma find_email_none (email : string) (l : list Account) :
  existsb (fun u => String.eqb (account_email u) email) l = false ->
  find (fun u => String.eqb (account_email u) email) l = None.
Proof.
  induction l as [|a l IH]; cbn; [reflexivity|].
  destruct (String.eqb (account_email a) email); [discriminate | exact IH].
Qed.

Lemma find_email_some (email : string) (l : list Account) :
  existsb (fun u => String.eqb (account_email u) email) l = true ->
  exists u, find (fun u => String.eqb (account_email u) email) l = Some u.
Proof.
  intro H. destruct (existsb_find _ _ H) as (u & F & _). exists u. exact F.
Qed.

Lemma find_email_app (email : string) (l : list Account) (row : Account) :
  existsb (fun u => String.eqb (account_email u) email) l = false ->
  account_email row = email ->
  find (fun u => String.eqb (account_email u) email) (l ++ [row]) = Some row.
Proof.
  intros Hfree Hrow. induction l as [|a l IH]; cbn in *.
  - rewrite Hrow, String.eqb_refl. reflexivity.
  - destruct (String.eqb (account_email a) email); [discriminate | auto].
Qed.

Lemma createUser_cases (email password role : string) (p : Platform) :
  (createUser email password role p = (Throw DbError, p))
  \/ (createUser email password role p = (Throw DbError, skip_account_id p))
  \/ (has_email email p = false
      /\ createUser email password role p
         = (Ok (mkAccount (accounts_serial p) email password role),
            mkPlatform
              (accounts p
               ++ [mkAccount (accounts_serial p) email password role])
              (firms p) (employerProfiles p) (postings p) (seekerProfiles p)
              (accounts_serial p + 1) (firms_serial p)
              (employer_profiles_serial p) (postings_serial p))).
Proof.
  unfold createUser, has_email.
  destruct (has_nul email || has_nul password || has_nul role) eqn:N;
    [left; reflexivity|].
  destruct (existsb _ (accounts p)) eqn:E; [right; left; reflexivity|].
  right. right. split; reflexivity.
Qed.

Lemma emails_distinct_add (p : Platform) (row : Account) :
  emails_distinct p ->
  has_email (account_email row) p = false ->
  NoDup (map account_email (accounts p ++ [row])).
Proof.
  unfold emails_distinct, has_email. intros Hd Hfree.
  rewrite map_app. cbn. apply NoDup_app; [exact Hd | | ].
  - constructor; [intros [] | constructor].
  - intros e He [<-|[]]. apply in_map_iff in He.
    destruct He as (u & Hu & Hin).
    assert (existsb (fun u => String.eqb (account_email u)
                                (account_email row)) (accounts p) = true).
    { apply existsb_exists. exists u. split; [exact Hin|].
      rewrite Hu. apply String.eqb_refl. }
    congruence.
Qed.

(** X21. Signing up never gives two users the same email: if the emails
    are distinct before, they are after, whatever email, password and role
    are submitted; and for an email already taken the route answers 400
    "User already exists" and writes nothing. *)
Theorem X21_signup_keeps_emails_distinct (email password : string)
  (role : option string) (p : Platform) :
  emails_distinct p ->
  emails_distinct (snd (signup email password role p))
  /\ (has_nul email = false -> has_email email p = true ->
      signup email password role p = (Ok UserAlreadyExists, p)).
Proof.
  intro Hd. unfold signup, pbind, getUserByEmail. split.
  - destruct (has_nul email); [exact Hd|].
    destruct (find _ (accounts p)) as [u|]; [exact Hd|].
    destruct (createUser_cases email password (role_or_seeker role) p)
      as [E|[E|[Hfree E]]]; rewrite E; [exact Hd | exact Hd |].
    cbn [snd]. unfold emails_distinct. cbn [accounts].
    apply (emails_distinct_add p _ Hd). exact Hfree.
  - intros Hnul Htaken. rewrite Hnul.
    destruct (find_email_some email _ Htaken) as [u F].
    rewrite F. reflexivity.
Qed.

Lemma X21_witness :
  emails_distinct
    (snd (signup "a@test.com" "secret" None
            (snd (signup "a@test.com" "other" None empty_platform))))
  /\ (has_nul "a@test.com" = false ->
      has_email "a@test.com"
        (snd (signup "a@test.com" "other" None empty_platform)) = true ->
      signup "a@test.com" "secret" None
        (snd (signup "a@test.com" "other" None empty_platform))
      = (Ok UserAlreadyExists,
         snd (signup "a@test.com" "other" None empty_platform))).
Proof.
  apply (X21_signup_keeps_emails_distinct "a@test.com" "secret" None
           (snd (signup "a@test.com" "other" None empty_platform))).
  repeat constructor. intros [].
Defined.

(** X22. Signing up with a new email stores the password as it is given
    and the role as it is given, 'seeker' when the role is absent or
    empty: no role is refused.  Afterwards the verify function of the
    local strategy returns that user for that email exactly when the
    password given is the one signed up with. *)
Theorem X22_signup_then_verify (email password : string)
  (role : option string) (p : Platform) :
  has_email email p = false ->
  has_nul email || has_nul password || has_nul (role_or_seeker role)
  = false ->
  let user := mkAccount (accounts_serial p) email password
                (role_or_seeker role) in
  exists p',
    signup email password role p = (Ok (SignedUp user), p')
    /\ forall attempt,
         verify email attempt p'
         = (Ok (if String.eqb password attempt then Some user else None), p').
Proof.
  intros Hfree Hnul user. subst user.
  assert (Hemail : has_nul email = false).
  { destruct (has_nul email); [discriminate Hnul | reflexivity]. }
  unfold signup, pbind, getUserByEmail. rewrite Hemail.
  unfold has_email in Hfree. rewrite (find_email_none email _ Hfree).
  unfold createUser. rewrite Hnul, Hfree.
  eexists. split; [reflexivity|].
  intro attempt. unfold verify, pbind, getUserByEmail. rewrite Hemail.
  cbn [accounts].
  rewrite (find_email_app email (accounts p)
             (mkAccount (accounts_serial p) email password
                (role_or_seeker role)) Hfree eq_refl).
  cbn [account_password].
  destruct (String.eqb password attempt); reflexivity.
Qed.

Lemma X22_witness :
  let user := mkAccount 1 "boss@test.com" "pw" "admin" in
  exists p',
    signup "boss@test.com" "pw" (Some "admin") empty_platform
    = (Ok (SignedUp user), p')
    /\ forall attempt,
         verify "boss@test.com" attempt p'
         = (Ok (if String.eqb "pw" attempt then Some user else None), p').
Proof.
  apply (X22_signup_then_verify "boss@test.com" "pw" (Some "admin")
           empty_platform); reflexivity.
Defined.

(** ** seedDatabase *)

Lemma has_email_find (email : string) (p : Platform) :
  has_email email p = false ->
  find (fun u => String.eqb (account_email u) email) (accounts p) = None.
Proof. apply find_email_none. Qed.

Lemma find_email_has (email : string) (p : Platform) :
  find (fun u => String.eqb (account_email u) email) (accounts p) = None ->
  has_email email p = false.
Proof.
  unfold has_email. induction (accounts p) as [|a l IH]; cbn; [reflexivity|].
  destruct (String.eqb (account_email a) email); [discriminate | exact IH].
Qed.

Lemma seed_ids_fit_inv (p : Platform) :
  seed_ids_fit p = true ->
  in_int4 (accounts_serial p) = true
  /\ in_int4 (accounts_serial p + 1) = true
  /\ in_int4 (firms_serial p) = true.
Proof.
  unfold seed_ids_fit. intro H.
  apply andb_prop in H. destruct H as [H H3].
  apply andb_prop in H. destruct H as [H1 H2]. auto.
Qed.

Ltac platform_fields :=
  cbn [accounts firms employerProfiles postings seekerProfiles
       accounts_serial firms_serial employer_profiles_serial postings_serial
       account_id company_id].

(** The seed up to and including the job, when the employer's email is
    free. *)
Lemma seed_first_half (p : Platform) :
  seed_ids_fit p = true ->
  has_email "employer@test.com" p = false ->
  seedDatabase p
  = pbind (createUser "seeker@test.com" "password" "seeker")
      (fun seeker =>
         pbind (createSeekerProfile (account_id seeker)
                  (Some [ "React"; "TypeScript"; "Tailwind" ]) (Some 4))
           (fun _ => pret tt))
      (half_seeded p).
Proof.
  intros Hfit Hfree.
  destruct (seed_ids_fit_inv p Hfit) as (Ha & _ & Hf).
  unfold seedDatabase.
  unfold pbind at 1. unfold getUserByEmail at 1.
  change (has_nul "employer@test.com") with false. cbv iota.
  rewrite (has_email_find _ p Hfree).
  unfold pbind at 1. unfold createUser at 1.
  unfold has_email in Hfree. rewrite Hfree.
  change (has_nul "employer@test.com" || has_nul "password"
          || has_nul "employer") with false. cbv iota.
  unfold pbind at 1. unfold createCompany at 1.
  change (has_nul "Tech Corp") with false. cbv iota.
  unfold pbind at 1. unfold createEmployerProfile at 1.
  platform_fields.
  rewrite Ha, Hf. cbn [andb negb].
  rewrite !existsb_app. cbn [existsb account_id company_id].
  rewrite !Z.eqb_refl, !orb_true_r. cbn [andb].
  unfold pbind at 1. unfold createJob at 1.
  platform_fields. rewrite Hf.
  change (negb (true && int4_or_null (Some 5))
          || has_nul "Senior React Developer"
          || has_nul "We are looking for an expert in React and Node.js."
          || texts_have_nul (Some [ "React"; "Node.js"; "TypeScript" ]))
    with false. cbv iota.
  rewrite !existsb_app. cbn [existsb company_id].
  rewrite !Z.eqb_refl, !orb_true_r.
  reflexivity.
Qed.

Lemma seed_full (p : Platform) :
  seed_ids_fit p = true ->
  has_email "employer@test.com" p = false ->
  has_email "seeker@test.com" p = false ->
  seedDatabase p = (Ok tt, seeded p).
Proof.
  intros Hfit He Hs. rewrite (seed_first_half p Hfit He).
  destruct (seed_ids_fit_inv p Hfit) as (_ & Ha & _).
  unfold pbind at 1. unfold createUser at 1.
  unfold half_seeded at 1 2. cbn [accounts].
  unfold has_email in Hs. rewrite existsb_app, Hs.
  change (has_nul "seeker@test.com" || has_nul "password"
          || has_nul "seeker") with false. cbv iota.
  change (false || existsb
            (fun u => String.eqb (account_email u) "seeker@test.com")
            [seed_employer p]) with false. cbv iota.
  unfold pbind at 1. unfold createSeekerProfile at 1.
  unfold half_seeded. platform_fields. rewrite Ha.
  change (negb (true && int4_or_null (Some 4))
          || texts_have_nul (Some [ "React"; "TypeScript"; "Tailwind" ]))
    with false. cbv iota.
  rewrite !existsb_app.
  cbn [existsb account_id]. rewrite !Z.eqb_refl, !orb_true_r.
  reflexivity.
Qed.

Lemma seed_half (p : Platform) :
  seed_ids_fit p = true ->
  has_email "employer@test.com" p = false ->
  has_email "seeker@test.com" p = true ->
  seedDatabase p = (Throw DbError, skip_account_id (half_seeded p)).
Proof.
  intros Hfit He Hs. rewrite (seed_first_half p Hfit He).
  unfold pbind at 1. unfold createUser at 1.
  unfold half_seeded at 1 2. cbn [accounts].
  unfold has_email in Hs. rewrite existsb_app, Hs.
  change (has_nul "seeker@test.com" || has_nul "password"
          || has_nul "seeker") with false. cbv iota.
  cbn [orb]. reflexivity.
Qed.

(** Operations that leave a taken email taken: all of them, since no
    operation removes or changes a user. *)
Lemma keeps_pret {A} (email : string) (a : A) : keeps_email email (pret a).
Proof. intros p H. exact H. Qed.

Lemma keeps_pbind {A B} (email : string) (m : PM A) (k : A -> PM B) :
  keeps_email email m -> (forall a, keeps_email email (k a)) ->
  keeps_email email (pbind m k).
Proof.
  intros Hm Hk p H. unfold pbind. specialize (Hm p H).
  destruct (m p) as [[a|e] p']; cbn [snd] in *; [apply Hk; exact Hm | exact Hm].
Qed.

Lemma has_email_more (email : string) (p : Platform) (row : Account) :
  has_email email p = true ->
  existsb (fun u => String.eqb (account_email u) email) (accounts p ++ [row])
  = true.
Proof.
  unfold has_email. intro H. rewrite existsb_app, H. reflexivity.
Qed.

Lemma keeps_createUser (email e pw r : string) :
  keeps_email email (createUser e pw r).
Proof.
  intros p H. unfold createUser.
  destruct (_ || _ || _); [exact H|].
  destruct (existsb _ (accounts p)); [exact H|].
  cbn [snd]. unfold has_email. cbn [accounts]. apply has_email_more, H.
Qed.

Lemma keeps_createCompany (email name : string) :
  keeps_email email (createCompany name).
Proof. intros p H. unfold createCompany. destruct (has_nul name); exact H. Qed.

Lemma keeps_createEmployerProfile (email : string) (u c : Z) :
  keeps_email email (createEmployerProfile u c).
Proof.
  intros p H. unfold createEmployerProfile.
  destruct (negb _); [exact H|]. destruct (_ && _); exact H.
Qed.

Lemma keeps_createJob (email : string) (c : Z) (t d : string)
  (r : option (list string)) (y : option Z) :
  keeps_email email (createJob c t d r y).
Proof.
  intros p H. unfold createJob.
  destruct (_ || _ || _ || _); [exact H|]. destruct (existsb _ _); exact H.
Qed.

Lemma keeps_createSeekerProfile (email : string) (u : Z)
  (s : option (list string)) (y : option Z) :
  keeps_email email (createSeekerProfile u s y).
Proof.
  intros p H. unfold createSeekerProfile.
  destruct (_ || _); [exact H|]. destruct (existsb _ _); exact H.
Qed.

Create HintDb keeps.
#[local] Hint Resolve keeps_pret keeps_createUser keeps_createCompany
  keeps_createEmployerProfile keeps_createJob keeps_createSeekerProfile
  : keeps.

(** After [seedDatabase], however it ended, the employer's email of the
    seed is taken. *)
Lemma seed_takes_employer_email (p : Platform) :
  has_email "employer@test.com" (snd (seedDatabase p)) = true.
Proof.
  unfold seedDatabase. unfold pbind at 1. unfold getUserByEmail.
  change (has_nul "employer@test.com") with false. cbv iota.
  destruct (find _ (accounts p)) as [u|] eqn:F.
  - unfold pret. cbn [snd].
    destruct (has_email "employer@test.com" p) eqn:E;
      [reflexivity|]. rewrite (has_email_find _ p E) in F. discriminate.
  - apply find_email_has in F.
    unfold pbind at 1. unfold createUser at 1.
    change (has_nul "employer@test.com" || has_nul "password"
            || has_nul "employer") with false. cbv iota.
    unfold has_email in F. rewrite F.
    match goal with
    | |- has_email _ (snd (?m _)) = true =>
        assert (K : keeps_email "employer@test.com" m)
    end.
    { repeat (apply keeps_pbind; [auto with keeps | intro]);
        auto with keeps. }
    apply K. unfold has_email. cbn [accounts]. rewrite existsb_app. cbn.
    apply orb_true_r.
Qed.

(** X23. On a platform where neither email of the seed is taken and the
    sequences have not run out, [seedDatabase] succeeds and adds exactly
    two users, an employer and a seeker, one company, the employer's
    profile in that company, one job of that company and the seeker's
    profile, each with the next id of its sequence. *)
Theorem X23_seed_on_free_emails (p : Platform) :
  seed_ids_fit p = true ->
  has_email "employer@test.com" p = false ->
  has_email "seeker@test.com" p = false ->
  seedDatabase p = (Ok tt, seeded p).
Proof. apply seed_full. Qed.

Lemma X23_witness : seedDatabase empty_platform = (Ok tt, seeded empty_platform).
Proof.
  apply (X23_seed_on_free_emails empty_platform); reflexivity.
Defined.

(** X24. [seedDatabase] is not atomic.  When the employer's email of the
    seed is free but the seeker's is taken, it throws at the second user,
    and the employer, the company, the employer profile and the job it
    has created before stay: no seeker and no seeker profile is added,
    and the id drawn for the refused user is spent. *)
Theorem X24_seed_stops_half_way (p : Platform) :
  seed_ids_fit p = true ->
  has_email "employer@test.com" p = false ->
  has_email "seeker@test.com" p = true ->
  seedDatabase p = (Throw DbError, skip_account_id (half_seeded p)).
Proof. apply seed_half. Qed.

Lemma X24_witness :
  seedDatabase seeker_taken
  = (Throw DbError, skip_account_id (half_seeded seeker_taken)).
Proof.
  apply (X24_seed_stops_half_way seeker_taken); reflexivity.
Defined.

(** X25. [seedDatabase] seeds at most once: after a call, whether it
    returned or threw at any of its steps, the employer's email of the
    seed is taken, so that every further call returns at once and changes
    nothing.  A seed that stopped half way is therefore never completed
    by calling it again. *)
Theorem X25_seed_only_once (p : Platform) :
  seedDatabase (snd (seedDatabase p)) = (Ok tt, snd (seedDatabase p)).
Proof.
  pose proof (seed_takes_employer_email p) as H.
  unfold seedDatabase at 1. unfold pbind, getUserByEmail.
  change (has_nul "employer@test.com") with false. cbv iota.
  destruct (find_email_some _ _ H) as [u F]. rewrite F. reflexivity.
Qed.
(** ** The employer's list of applicants *)

Lemma no_profile_joined {A} (k : Z) (f : JobSeekerProfile -> list A)
  (profiles : list JobSeekerProfile) :
  Forall (fun pr => profile_userId pr <> k) profiles ->
  flat_map (fun pr => if profile_userId pr =? k then f pr else []) profiles
  = [].
Proof.
  induction 1 as [|pr prs Hpr _ IH]; cbn; [reflexivity|].
  rewrite IH, app_nil_r. apply Z.eqb_neq in Hpr. rewrite Hpr. reflexivity.
Qed.

Lemma join_listed_no_profile (d : Db) (a : Application) :
  Forall (fun pr => profile_userId pr <> seekerId a) (jobSeekerProfiles d) ->
  join_listed d a = [].
Proof.
  intro H. unfold join_listed.
  induction (users d) as [|u us IH]; cbn; [reflexivity|].
  rewrite IH, app_nil_r.
  destruct (user_id u =? seekerId a) eqn:E; [|reflexivity].
  apply Z.eqb_eq in E. rewrite E. apply no_profile_joined. exact H.
Qed.

Lemma listed_application_in (d : Db) (a : Application)
  (row : ListedApplication) :
  In row (join_listed d a) -> listed_application row = a.
Proof.
  unfold join_listed. intro H. apply in_flat_map in H.
  destruct H as (u & _ & H). destruct (user_id u =? seekerId a); [|easy].
  apply in_flat_map in H. destruct H as (pr & _ & H).
  destruct (profile_userId pr =? user_id u); [|easy].
  apply in_map_iff in H. destruct H as (s & <- & _). reflexivity.
Qed.

(** X26. A seeker needs no profile to apply, but the employer's list
    joins job_seeker_profiles: after a submission by a seeker who has no
    profile has gone through and its screening has settled, the seeker's
    own list holds the new application and the list of applicants of the
    job holds no row of that seeker.  (The site is consistent before.) *)
Theorem X26_applicant_without_profile_unlisted (w : World) (site : Site)
  (u : SessionUser) (req_body : JValue) (j : Z) :
  site_ok site ->
  accepted_submission site u req_body j ->
  Forall (fun pr => profile_userId pr <> session_id u)
    (jobSeekerProfiles (db (inner site))) ->
  let site1 := settled (apply_route w (Some u) req_body site) in
  In (mkApplication (applications_serial site) j (session_id u))
     (listApplicationsForSeeker (session_id u) site1)
  /\ exists rows,
       listApplicationsForJob (inject_Z j) (inner site1)
       = (Ok rows, inner site1)
       /\ Forall (fun row => seekerId (listed_application row)
                             <> session_id u) rows.
Proof.
  intros Hok Hacc Hnone site1. subst site1.
  split; [apply (submitted_listed w site u req_body j Hok Hacc)|].
  rewrite (accepted_created w site u req_body j Hacc).
  unfold settled. cbn [started site_after inner]. rewrite settle_one.
  set (st0 := mkState _ _ _).
  destruct (run_other_tables w (inject_Z (applications_serial site)) st0)
    as (Tu & Tp & _ & Ta).
  set (st1 := snd (processApplicationAI w
                     (inject_Z (applications_serial site)) st0)) in *.
  destruct Hacc as [_ (q & note & Hparse & Hq & _) Hjob _ _].
  assert (Hj : number_as_int4 (inject_Z j) = Some j).
  { unfold number_as_int4. rewrite Qred_inject. cbn.
    unfold number_as_int4 in Hq.
    destruct (Z.pos (Qden (Qred q)) =? 1); [|discriminate].
    destruct (in_int4 (Qnum (Qred q))) eqn:I; [|discriminate].
    inversion Hq; subst. rewrite I. reflexivity. }
  eexists. split.
  - unfold listApplicationsForJob, bind, the_int4. rewrite Hj. reflexivity.
  - apply Forall_forall. intros row Hrow.
    apply in_flat_map in Hrow. destruct Hrow as (a & _ & Hrow).
    destruct (jobId a =? j); [|easy].
    intro Hs.
    rewrite (listed_application_in _ a row Hrow) in Hs.
    rewrite (join_listed_no_profile (db st1) a) in Hrow; [easy|].
    rewrite Tp. subst st0. cbn [db jobSeekerProfiles with_applications].
    rewrite Hs. exact Hnone.
Qed.

Lemma X26_witness :
  let site1 := settled (apply_route no_provider (Some seeker7) (apply_body 3)
                          siteA_without_profile) in
  In (mkApplication 1 3 7) (listApplicationsForSeeker 7 site1)
  /\ exists rows,
       listApplicationsForJob (inject_Z 3) (inner site1)
       = (Ok rows, inner site1)
       /\ Forall (fun row => seekerId (listed_application row) <> 7) rows.
Proof.
  apply (X26_applicant_without_profile_unlisted no_provider
           siteA_without_profile seeker7 (apply_body 3) 3).
  - constructor; cbn; repeat constructor.
  - constructor; cbn; try reflexivity.
    + exists (inject_Z 3), None. repeat split; reflexivity.
    + constructor.
  - constructor.
Defined.

